(** * LifeMonitor: status aggregation and scheduled tasks

    A shallow embedding of [lifemonitor/api/models/status.py] and of the
    job bodies of [lifemonitor/tasks/tasks.py], with the properties of the
    health-monitoring engine stated and proved over it.

    Python objects become records, the string-valued constant classes become
    inductive types, code that may raise returns a [result], and the jobs,
    which mutate the notification store and log while they catch exceptions,
    run in a small state-and-exception monad. *)

From Stdlib Require Import ZArith String List Bool Lia Permutation.
From stdpp Require Import base tactics option list strings gmap.

Local Open Scope string_scope.

(** ** Exceptions and fallible values *)

(** The exception classes the embedded code can meet.  Each carries what
    [str(e)] prints, where that text is used by the code. *)
Inductive Exception :=
| IndexError
| AttributeError
| ValueError
| TestingServiceException (msg : string)
| OtherException (msg : string).

Definition str_exception (e : Exception) : string :=
  match e with
  | IndexError => "list index out of range"
  | AttributeError => "'NoneType' object has no attribute 'status'"
  | ValueError => "max() arg is an empty sequence"
  | TestingServiceException msg => msg
  | OtherException msg => msg
  end.

Inductive result (A : Type) :=
| Ok (a : A)
| Raise (e : Exception).
Arguments Ok {A} a.
Arguments Raise {A} e.

Definition rbind {A B} (r : result A) (k : A -> result B) : result B :=
  match r with
  | Ok a => k a
  | Raise e => Raise e
  end.

Declare Scope result_scope.
Delimit Scope result_scope with res.
Notation "'let?' x := r 'in' k" := (rbind r (fun x => k))
  (at level 10, x name, r at level 100, k at level 200) : result_scope.

(** Python's [l[n]]: an [IndexError] out of range. *)
Definition index {A} (l : list A) (n : nat) : result A :=
  match l !! n with
  | Some x => Ok x
  | None => Raise IndexError
  end.

(** A [for] loop threading an accumulator through a body that may raise. *)
Fixpoint foldM {A S} (f : A -> S -> result S) (l : list A) (s : S) : result S :=
  match l with
  | [] => Ok s
  | x :: l' => rbind (f x s) (foldM f l')
  end.

(** ** Data model *)

(** [AggregateTestStatus] of status.py. *)
Inductive AggregateTestStatus :=
| ALL_PASSING
| SOME_PASSING
| ALL_FAILING
| NOT_AVAILABLE.

(** Modelled from the spec: [BuildStatus] is imported from
    [lifemonitor.api.models.testsuites.testbuild], a module outside the two
    embedded here; the data model has [status: Passed|Failed|Other]. *)
Inductive BuildStatus :=
| PASSED
| FAILED
| OTHER.

Definition BuildStatus_eqb (a b : BuildStatus) : bool :=
  match a, b with
  | PASSED, PASSED | FAILED, FAILED | OTHER, OTHER => true
  | _, _ => false
  end.

(** A build record as fetched from a testing service: [build_id] is
    [b.id], [build_repr] is [str(b)], [is_successful] is the value of
    [b.is_successful()].  A fetched build is an immutable value. *)
Record TestBuild := {
  build_id : string;
  build_repr : string;
  status : BuildStatus;
  is_successful : bool
}.

(** A test instance together with the answers of its testing service:
    [last_test_build] is the property read by both modules (it may raise,
    or be [None]); [get_test_builds limit] and [get_test_build id] are the
    gateway calls of the polling job. *)
Record TestInstance := {
  instance_repr : string;
  testing_service_url : string;
  resource : string;
  last_test_build : result (option TestBuild);
  get_test_builds : nat -> result (list TestBuild);
  get_test_build : string -> result TestBuild
}.

Record TestSuite := {
  suite_repr : string;
  test_instances : list TestInstance
}.

(** ** status.py *)

Module Status.

(** A value of an availability-issue dict. *)
Inductive IssueValue :=
| VStr (s : string)
| VTestInstance (i : TestInstance).

(** An availability issue is a dict literal: its keys in writing order. *)
Abbreviation Issue := (list (string * IssueValue)).

(** [Status._update_status] *)
Definition _update_status (current_status : AggregateTestStatus)
    (build_passing : bool) : AggregateTestStatus :=
  match current_status with
  | NOT_AVAILABLE =>
      if build_passing then ALL_PASSING
      else if negb build_passing then ALL_FAILING
      else current_status
  | ALL_PASSING =>
      if negb build_passing then SOME_PASSING else current_status
  | ALL_FAILING =>
      if build_passing then SOME_PASSING else current_status
  | SOME_PASSING => current_status
  end.

(** The three values [check_status] accumulates and returns. *)
Record Acc := {
  acc_status : AggregateTestStatus;
  latest_builds : list TestBuild;
  availability_issues : list Issue
}.

Definition append_issue (iss : Issue) (a : Acc) : Acc :=
  {| acc_status := acc_status a;
     latest_builds := latest_builds a;
     availability_issues := availability_issues a ++ [iss] |}.

Definition no_build_issue (test_instance : TestInstance) : Issue :=
  [("service", VStr (testing_service_url test_instance));
   ("test_instance", VTestInstance test_instance);
   ("issue", VStr "No build found")].

Definition service_issue (test_instance : TestInstance) (e : string) : Issue :=
  [("service", VStr (testing_service_url test_instance));
   ("resource", VStr (resource test_instance));
   ("issue", VStr e)].

(** The body of the inner loop of [check_status]: the [try] around one test
    instance.  Only [TestingServiceException] is caught. *)
Definition check_instance (test_instance : TestInstance) (a : Acc) : result Acc :=
  match last_test_build test_instance with
  | Ok None => Ok (append_issue (no_build_issue test_instance) a)
  | Ok (Some latest_build) =>
      Ok {| acc_status := _update_status (acc_status a) (is_successful latest_build);
            latest_builds := latest_builds a ++ [latest_build];
            availability_issues := availability_issues a |}
  | Raise (TestingServiceException msg) =>
      Ok (append_issue (service_issue test_instance msg) a)
  | Raise e => Raise e
  end.

(** The body of the outer loop of [check_status]. *)
Definition check_suite (suite : TestSuite) (a : Acc) : result Acc :=
  let a :=
    if (length (test_instances suite) =? 0)%nat
    then append_issue
           [("issue", VStr ("No test instances configured for suite " +:+ suite_repr suite))] a
    else a in
  foldM check_instance (test_instances suite) a.

(** [Status.check_status] *)
Definition check_status (suites : list TestSuite) : result Acc :=
  let a := {| acc_status := NOT_AVAILABLE; latest_builds := []; availability_issues := [] |} in
  let a :=
    if (length suites =? 0)%nat
    then append_issue [("issue", VStr "No test suite configured for this workflow")] a
    else a in
  foldM check_suite suites a.

(** The reduction [check_status] applies to the outcomes of the builds it
    found, in the order it meets them. *)
Definition aggregate (outcomes : list bool) : AggregateTestStatus :=
  fold_left _update_status outcomes NOT_AVAILABLE.

(** The aggregate status in the words of the specification: not available
    without builds, all passing, all failing, otherwise some passing. *)
Definition expected_status (outcomes : list bool) : AggregateTestStatus :=
  match outcomes with
  | [] => NOT_AVAILABLE
  | _ :: _ =>
      if forallb (fun b => b) outcomes then ALL_PASSING
      else if forallb negb outcomes then ALL_FAILING
      else SOME_PASSING
  end.

(** The builds a scan finds, suite by suite and instance by instance. *)
Definition fetched_build (test_instance : TestInstance) : option TestBuild :=
  match last_test_build test_instance with
  | Ok (Some b) => Some b
  | _ => None
  end.

Definition all_instances (suites : list TestSuite) : list TestInstance :=
  concat (map test_instances suites).

Definition fetched_builds (suites : list TestSuite) : list TestBuild :=
  omap fetched_build (all_instances suites).

(** The gateway answered, or failed with its own error class. *)
Definition gateway_behaves (test_instance : TestInstance) : Prop :=
  match last_test_build test_instance with
  | Ok _ => True
  | Raise (TestingServiceException _) => True
  | Raise _ => False
  end.

(** The status of an accumulator is the fold of the builds it holds. *)
Definition status_folded (a : Acc) : Prop :=
  acc_status a = aggregate (map is_successful (latest_builds a)).

(** The issue one test instance leaves in a scan, if it leaves one. *)
Definition instance_issue (test_instance : TestInstance) : option Issue :=
  match last_test_build test_instance with
  | Ok None => Some (no_build_issue test_instance)
  | Raise (TestingServiceException msg) => Some (service_issue test_instance msg)
  | _ => None
  end.

(** The issues a scan reports for one suite, and for all of them. *)
Definition suite_issues (suite : TestSuite) : list Issue :=
  (if (length (test_instances suite) =? 0)%nat
   then [[("issue", VStr ("No test instances configured for suite " +:+ suite_repr suite))]]
   else [])
  ++ omap instance_issue (test_instances suite).

Definition scan_issues (suites : list TestSuite) : list Issue :=
  (if (length suites =? 0)%nat
   then [[("issue", VStr "No test suite configured for this workflow")]]
   else [])
  ++ concat (map suite_issues suites).

(** The suites of a scan that have no test instance. *)
Definition empty_suites (suites : list TestSuite) : list TestSuite :=
  filter (fun s => test_instances s = []) suites.

End Status.

(** ** tasks.py *)

Module Tasks.

(** *** Collaborators of the jobs

    The classes below are imported by tasks.py from other modules of the
    package; the records keep the attributes the jobs read. *)

Record User := {
  user_id : nat;
  email : option string;
  email_notifications_enabled : bool
}.

(** The association of a notification with one recipient. *)
Record UserNotification := {
  user : User;
  emailed : option Z
}.

Inductive EventType :=
| BUILD_FAILED
| BUILD_RECOVERED.

Inductive NotificationClass :=
| WorkflowStatusNotification
| UnconfiguredEmailNotification.

(** Times are microseconds, the resolution of [datetime]. *)
Record Notification := {
  notification_id : nat;
  class : NotificationClass;
  created : Z;
  event : EventType;
  name : string;
  data : option TestBuild;
  users : list UserNotification
}.

Record WorkflowVersion := {
  version : string;
  version_created : Z;
  submitter : option User;
  transaction : result unit;
  login_user : result unit;
  rocrate_download : result unit;
  logout_user : result unit;
  test_suites : list TestSuite
}.

Record Workflow := {
  uuid : string;
  workflow_repr : string;
  versions : list WorkflowVersion;
  subscribers : list User
}.

(** [Workflow.latest_version] of workflows.py:
    [max(self.versions.values(), key=lambda v: v.created)], the first of the
    versions with the greatest creation time, [ValueError] without versions. *)
Fixpoint max_created (best : WorkflowVersion) (vs : list WorkflowVersion) : WorkflowVersion :=
  match vs with
  | [] => best
  | v :: vs' =>
      max_created (if (version_created best <? version_created v)%Z then v else best) vs'
  end.

Definition latest_version (w : Workflow) : result WorkflowVersion :=
  match versions w with
  | [] => Raise ValueError
  | v :: vs => Ok (max_created v vs)
  end.

(** *** The state the jobs act on, and the monad they run in *)

(** [notifications] is the notification table, [updated] the RO-Crates
    refreshed so far (workflow uuid and version), [errors] the messages
    passed to [logger.error]. *)
Record State := {
  notifications : list Notification;
  updated : list (string * string);
  errors : list string
}.

Definition task (A : Type) : Type := State -> State * result A.

Definition ret {A} (a : A) : task A := fun st => (st, Ok a).

Definition bind {A B} (m : task A) (k : A -> task B) : task B :=
  fun st =>
    match m st with
    | (st', Ok a) => k a st'
    | (st', Raise e) => (st', Raise e)
    end.

Definition lift {A} (r : result A) : task A := fun st => (st, r).

(** [try: body except Exception as e: handler e] *)
Definition try_except {A} (body : task A) (handler : Exception -> task A) : task A :=
  fun st =>
    match body st with
    | (st', Ok a) => (st', Ok a)
    | (st', Raise e) => handler e st'
    end.

(** [try: body finally: final] *)
Definition try_finally {A} (body : task A) (final : task unit) : task A :=
  fun st =>
    match body st with
    | (st', r) =>
        match final st' with
        | (st'', Ok _) => (st'', r)
        | (st'', Raise e) => (st'', Raise e)
        end
    end.

Declare Scope task_scope.
Delimit Scope task_scope with task.
Notation "'do' x <- m ; k" := (bind m (fun x => k))
  (at level 10, x name, m at level 100, k at level 200) : task_scope.
Notation "'exec' m ; k" := (bind m (fun _ => k))
  (at level 10, m at level 100, k at level 200) : task_scope.
Local Open Scope task_scope.

(** A [for] loop with a local accumulator. *)
Fixpoint for_fold {A B} (l : list A) (f : A -> B -> task B) (b : B) : task B :=
  match l with
  | [] => ret b
  | x :: l' => do b' <- f x b; for_fold l' f b'
  end.

Definition for_each {A} (l : list A) (f : A -> task unit) : task unit :=
  for_fold l (fun x _ => f x) tt.

Definition get_notifications : task (list Notification) :=
  fun st => (st, Ok (notifications st)).

Definition set_notifications (ns : list Notification) : task unit :=
  fun st =>
    ({| notifications := ns; updated := updated st; errors := errors st |}, Ok tt).

Definition logger_error (msg : string) : task unit :=
  fun st =>
    ({| notifications := notifications st; updated := updated st;
        errors := errors st ++ [msg] |}, Ok tt).

Definition mark_updated (u v : string) : task unit :=
  fun st =>
    ({| notifications := notifications st; updated := updated st ++ [(u, v)];
        errors := errors st |}, Ok tt).

(** *** Queries of the notification table *)

(** Modelled from the spec: [Notification.find_by_name] belongs to
    [lifemonitor.auth.models]; it looks notifications up by this exact name. *)
Definition find_by_name (nm : string) (ns : list Notification) : list Notification :=
  filter (fun n => name n = nm) ns.

(** Modelled from the spec: [Notification.older_than] belongs to
    [lifemonitor.auth.models]; the query is the notifications older than T. *)
Definition older_than (date : Z) (ns : list Notification) : list Notification :=
  filter (fun n => (created n < date)%Z) ns.

(** Modelled from the spec: [Notification.not_emailed] belongs to
    [lifemonitor.auth.models]; the query is the notifications not yet emailed,
    those with a recipient whose emailed time is unset. *)
Definition not_emailed (ns : list Notification) : list Notification :=
  filter (fun n => existsb (fun u => bool_decide (emailed u = None)) (users n) = true) ns.

(** Modelled from the spec: [Notification.save] of a new notification adds
    a row, under an identifier no row has. *)
Definition fresh_id (ns : list Notification) : nat :=
  S (foldr Nat.max 0%nat (map notification_id ns)).

Definition save (n : Notification) : task unit :=
  do ns <- get_notifications;
  set_notifications
    (ns ++ [{| notification_id := fresh_id ns; class := class n; created := created n;
               event := event n; name := name n; data := data n; users := users n |}]).

(** Modelled from the spec: the constructor of [WorkflowStatusNotification]
    belongs to [lifemonitor.api.models.notifications]; the emailed time of
    every recipient starts unset. *)
Definition new_WorkflowStatusNotification (now : Z) (ev : EventType) (nm : string)
    (build : TestBuild) (us : list User) : Notification :=
  {| notification_id := 0; class := WorkflowStatusNotification; created := now;
     event := ev; name := nm; data := Some build;
     users := map (fun u => {| user := u; emailed := None |}) us |}.

(** *** check_workflows *)

(** The body run for one version [v] of workflow [w], inside
    [with v.cache.transaction(str(v))]. *)
Definition update_version (w : Workflow) (v : WorkflowVersion) : task unit :=
  exec lift (transaction v);
  let u := submitter v in
  try_finally
    (try_except
       (exec (match u with Some _ => lift (login_user v) | None => ret tt end);
        exec lift (rocrate_download v);
        mark_updated (uuid w) (version v))
       (fun e =>
          logger_error ("Error when updating the workflow " +:+ workflow_repr w
                        +:+ ": " +:+ str_exception e)))
    (try_except (lift (logout_user v)) (fun _ => ret tt)).

(** What the login and the download of the inner [try] of [update_version]
    end with, as a plain value. *)
Definition refresh_outcome (v : WorkflowVersion) : result unit :=
  rbind (match submitter v with Some _ => login_user v | None => Ok tt end)
        (fun _ => rocrate_download v).

(** The body of the loop of [check_workflows]: the [try] around the
    versions of one workflow. *)
Definition update_workflow (w : Workflow) : task unit :=
  try_except
    (for_each (versions w) (update_version w))
    (fun e =>
       logger_error ("Error when executing task 'check_workflows': " +:+ str_exception e)).

(** [check_workflows], over the workflows [Workflow.all()] returns. *)
Definition check_workflows (workflows : list Workflow) : task unit :=
  for_each workflows update_workflow.

(** *** check_last_build *)

(** [s in (BuildStatus.FAILED, BuildStatus.PASSED)] *)
Definition decisive (s : BuildStatus) : bool :=
  BuildStatus_eqb s FAILED || BuildStatus_eqb s PASSED.

(** The condition of the [if] that checks the state transition, evaluated
    left to right with the short cuts of [and] and [or]. *)
Definition transition_condition (builds : list TestBuild) (last_build : TestBuild)
    (failed : bool) : result bool :=
  if (length builds =? 1)%nat && failed then Ok true
  else
    (let? b0 := index builds 0 in
     if decisive (status b0) then
       let? b1 := index builds 1 in
       if decisive (status b1) then
         if (1 <? length builds)%nat then
           let? b1' := index builds 1 in
           Ok (negb (BuildStatus_eqb (status b1') (status last_build)))
         else Ok false
       else Ok false
     else Ok false)%res.

Definition event_type (failed : bool) : EventType :=
  if failed then BUILD_FAILED else BUILD_RECOVERED.

Definition notification_name (last_build : TestBuild) (failed : bool) : string :=
  build_repr last_build +:+ " " +:+ (if failed then "FAILED" else "RECOVERED").

(** The transition the job sees in [builds], with [last_build] the latest
    build of the instance: the event to notify, if any. *)
Definition check_state_transition (builds : list TestBuild) (last_build : TestBuild)
    : result (option EventType) :=
  let failed := BuildStatus_eqb (status last_build) FAILED in
  (let? c := transition_condition builds last_build failed in
   Ok (if c then Some (event_type failed) else None))%res.

(** The body run for one test instance [i] of the latest version of [w],
    inside [with i.cache.transaction(str(i))]. *)
Definition check_test_instance (now : Z) (w : Workflow) (i : TestInstance) : task unit :=
  do builds <- lift (get_test_builds i 10);
  exec for_each builds (fun b => do _b <- lift (get_test_build i (build_id b)); ret tt);
  do last <- lift (last_test_build i);
  do last_build <- lift (match last with Some b => Ok b | None => Raise AttributeError end);
  let failed := BuildStatus_eqb (status last_build) FAILED in
  do transition <- lift (check_state_transition builds last_build);
  match transition with
  | Some ev =>
      let nm := notification_name last_build failed in
      do ns <- get_notifications;
      if (length (find_by_name nm ns) =? 0)%nat then
        let us := subscribers w in
        save (new_WorkflowStatusNotification now ev nm last_build us)
      else ret tt
  | None => ret tt
  end.

(** The gateway calls that refresh the recent builds, as a plain value. *)
Definition refresh_builds (i : TestInstance) (builds : list TestBuild) : result unit :=
  foldM (fun b _ => rbind (get_test_build i (build_id b)) (fun _ => Ok tt)) builds tt.

(** What [check_test_instance] decides before it reads the table: the
    exception it ends with, or the notification it wants to exist (event,
    name and build), if any. *)
Definition wanted_notification (i : TestInstance)
    : result (option (EventType * string * TestBuild)) :=
  (let? builds := get_test_builds i 10 in
   let? _u := refresh_builds i builds in
   let? last := last_test_build i in
   let? last_build := match last with Some b => Ok b | None => Raise AttributeError end in
   let? transition := check_state_transition builds last_build in
   Ok (option_map
         (fun ev =>
            (ev, notification_name last_build (BuildStatus_eqb (status last_build) FAILED),
             last_build))
         transition))%res.

(** The names in the notification table. *)
Definition names (st : State) : list string := map name (notifications st).

(** The notification [i] wants, if any, is in the table. *)
Definition covered (st : State) (i : TestInstance) : Prop :=
  match wanted_notification i with
  | Ok (Some (_, nm, _)) => In nm (names st)
  | _ => True
  end.

(** What the [try] of [check_last_build] protects: the scan of the suites
    of the latest version of [w]. *)
Definition check_workflow_builds (now : Z) (w : Workflow) : task unit :=
  do latest <- lift (latest_version w);
  for_each (test_suites latest) (fun s =>
    for_each (test_instances s) (check_test_instance now w)).

(** The body of the loop of [check_last_build]: the [try] around one
    workflow. *)
Definition check_workflow_last_build (now : Z) (w : Workflow) : task unit :=
  try_except
    (check_workflow_builds now w)
    (fun e =>
       logger_error ("Error when executing task 'check_last_build': " +:+ str_exception e)).

(** [check_last_build], over the workflows [Workflow.all()] returns, run at
    time [now]. *)
Definition check_last_build (now : Z) (workflows : list Workflow) : task unit :=
  for_each workflows (check_workflow_last_build now).

(** *** send_email_notifications *)

(** Python's truth value of [u.user.email]: set and not empty. *)
Definition truthy (e : option string) : bool :=
  match e with
  | Some s => negb (String.eqb s EmptyString)
  | None => false
  end.

(** The filter of the list comprehension that builds [recipients]. *)
Definition eligible (u : UserNotification) : bool :=
  bool_decide (emailed u = None)
  && email_notifications_enabled (user u)
  && truthy (email (user u)).

(** A recipient the dispatcher is to leave out: already emailed, or with
    email notifications disabled, or without a configured address. *)
Definition excluded (u : UserNotification) : Prop :=
  emailed u <> None
  \/ email_notifications_enabled (user u) = false
  \/ email (user u) = None
  \/ email (user u) = Some EmptyString.

Definition recipients_of (n : Notification) : list string :=
  omap (fun u => if eligible u then email (user u) else None) (users n).

(** No recipient left out has the address of a recipient included. *)
Definition addresses_apart (n : Notification) : Prop :=
  forall u u',
    In u (users n) -> In u' (users n) ->
    eligible u = true -> eligible u' = false ->
    email (user u) <> email (user u').

(** [u.user.email in recipients] *)
Definition email_in (u : UserNotification) (recipients : list string) : bool :=
  match email (user u) with
  | Some e => bool_decide (e ∈ recipients)
  | None => false
  end.

(** The loop that records the delivery: [u.emailed = sent] for the users
    whose address is among [recipients]. *)
Definition set_emailed (sent : Z) (recipients : list string)
    (us : list UserNotification) : list UserNotification :=
  map (fun u =>
         if email_in u recipients
         then {| user := user u; emailed := Some sent |}
         else u) us.

(** Modelled from the spec: [Notification.save] of a stored notification
    writes its row back. *)
Definition save_row (n : Notification) : task unit :=
  do ns <- get_notifications;
  set_notifications
    (map (fun m => if (notification_id m =? notification_id n)%nat then n else m) ns).

Definition isinstance_UnconfiguredEmailNotification (n : Notification) : bool :=
  match class n with
  | UnconfiguredEmailNotification => true
  | WorkflowStatusNotification => false
  end.

Section Dispatcher.

(** The mail transport, [lifemonitor.mail.send_notification]: the time of
    the delivery, or [None]. *)
Variable send_notification : Notification -> list string -> option Z.

(** The notification as the loop leaves it after a delivery at [sent]. *)
Definition delivered (n : Notification) (sent : Z) : Notification :=
  {| notification_id := notification_id n; class := class n; created := created n;
     event := event n; name := name n; data := data n;
     users := set_emailed sent (recipients_of n) (users n) |}.

(** The body of the loop over the notifications to send. *)
Definition deliver (n : Notification) (count : nat) : task nat :=
  let recipients := recipients_of n in
  match send_notification n recipients with
  | Some sent =>
      exec save_row (delivered n sent);
      ret (count + 1)%nat
  | None => ret count
  end.

Definition send_email_notifications : task nat :=
  do ns <- get_notifications;
  let notifications :=
    filter (fun n => isinstance_UnconfiguredEmailNotification n = false) (not_emailed ns) in
  for_fold notifications deliver 0%nat.

End Dispatcher.

(** *** cleanup_notifications *)

(** [datetime.timedelta(days=d)] in microseconds. *)
Definition timedelta_days (d : Z) : Z := (d * 86400 * 1000000)%Z.

(** The age under which [cleanup_notifications] keeps a notification: the
    argument of [timedelta] in the job. *)
Definition retention : Z := timedelta_days 0.

Section Cleanup.

(** What [n.delete()] does at the storage: it returns, or raises. *)
Variable delete_outcome : Notification -> result unit.

Definition delete (n : Notification) : task unit :=
  exec lift (delete_outcome n);
  do ns <- get_notifications;
  set_notifications (filter (fun m => notification_id m <> notification_id n) ns).

(** [cleanup_notifications] run at [current_time]; the count it logs is
    returned. *)
Definition cleanup_notifications (current_time : Z) : task nat :=
  let one_week_ago := (current_time - retention)%Z in
  do ns <- get_notifications;
  let notifications := older_than one_week_ago ns in
  for_fold notifications
    (fun n count =>
       try_except
         (exec delete n; ret (count + 1)%nat)
         (fun _ =>
            exec logger_error ("Error when deleting notification " +:+ name n);
            ret count))
    0%nat.

End Cleanup.

End Tasks.

(** ** Test instances and scenarios *)

Module Scenarios.
Import Tasks.

(** Modelled from the spec: the class [TestInstance] belongs to
    [lifemonitor.api.models].  An instance whose testing service holds [builds],
    newest first: the latest build is [builds[0]], [None] without builds;
    the recent builds are the first [limit] of them. *)
Definition instance_with_builds (nm : string) (builds : list TestBuild) : TestInstance :=
  {| instance_repr := nm;
     testing_service_url := "https://ci.example.org";
     resource := nm;
     last_test_build := Ok (head builds);
     get_test_builds := fun limit => Ok (take limit builds);
     get_test_build := fun id =>
       match find (fun b => String.eqb (build_id b) id) builds with
       | Some b => Ok b
       | None => Raise (TestingServiceException ("build not found: " +:+ id))
       end |}.

(** An instance whose testing service fails every call with [msg]. *)
Definition unreachable_instance (nm msg : string) : TestInstance :=
  {| instance_repr := nm;
     testing_service_url := "https://ci.example.org";
     resource := nm;
     last_test_build := Raise (TestingServiceException msg);
     get_test_builds := fun _ => Raise (TestingServiceException msg);
     get_test_build := fun _ => Raise (TestingServiceException msg) |}.

Definition build (id : string) (st : BuildStatus) : TestBuild :=
  {| build_id := id;
     build_repr := "<TestBuild " +:+ id +:+ ">";
     status := st;
     is_successful := BuildStatus_eqb st PASSED |}.

(** Scenario F: three instances, the gateway fails for the second. *)
Definition scenario_F : list TestSuite :=
  [{| suite_repr := "suite";
      test_instances :=
        [instance_with_builds "i1" [build "11" PASSED];
         unreachable_instance "i2" "service unavailable";
         instance_with_builds "i3" [build "31" FAILED; build "30" PASSED]] |}].

Definition empty_state : State :=
  {| notifications := []; updated := []; errors := [] |}.

Definition alice : User :=
  {| user_id := 1; email := Some "alice@example.org"; email_notifications_enabled := true |}.

(** A version whose lock, login, download and logout all succeed. *)
Definition version_with (v : string) (t : Z) (suites : list TestSuite) : WorkflowVersion :=
  {| version := v; version_created := t; submitter := Some alice;
     transaction := Ok tt; login_user := Ok tt; rocrate_download := Ok tt;
     logout_user := Ok tt; test_suites := suites |}.

Definition workflow_with (id : string) (instances : list TestInstance) : Workflow :=
  {| uuid := id;
     workflow_repr := "<Workflow " +:+ id +:+ ">";
     versions := [version_with "1.0" 10 [{| suite_repr := "suite"; test_instances := instances |}]];
     subscribers := [alice] |}.

(** Scenario D: the last two builds of the instance are failed, passed. *)
Definition scenario_D : Workflow :=
  workflow_with "w1" [instance_with_builds "i1" [build "2" FAILED; build "1" PASSED]].

(** Recipients of a notification: [bob] has email notifications disabled
    and the address of [alice]; [carol] has them disabled and her own. *)
Definition bob : User :=
  {| user_id := 2; email := Some "alice@example.org"; email_notifications_enabled := false |}.

Definition carol : User :=
  {| user_id := 3; email := Some "carol@example.org"; email_notifications_enabled := false |}.

Definition notification_for (us : list User) : Notification :=
  new_WorkflowStatusNotification 100 BUILD_FAILED "<TestBuild 2> FAILED" (build "2" FAILED) us.

Definition table_of (n : Notification) : State :=
  {| notifications := [n]; updated := []; errors := [] |}.

(** A notification created at time [t]. *)
Definition notification_at (t : Z) : Notification :=
  new_WorkflowStatusNotification t BUILD_FAILED "<TestBuild 2> FAILED" (build "2" FAILED) [alice].

(** The row of identifier [id] of a notification created at time [t], and
    a table of rows. *)
Definition row_at (id : nat) (t : Z) : Notification :=
  {| notification_id := id; class := WorkflowStatusNotification; created := t;
     event := BUILD_FAILED; name := "<TestBuild 2> FAILED"; data := Some (build "2" FAILED);
     users := [{| user := alice; emailed := None |}] |}.

Definition table_with (ns : list Notification) : State :=
  {| notifications := ns; updated := []; errors := [] |}.

(** A storage whose deletions all succeed. *)
Definition delete_succeeds (n : Notification) : result unit := Ok tt.

(** A transport that delivers every message at time 500. *)
Definition transport (n : Notification) (recipients : list string) : option Z := Some 500%Z.

(** A workflow with three versions, newest first; the first two were
    created at the same time. *)
Definition scenario_versions : Workflow :=
  {| uuid := "w4";
     workflow_repr := "<Workflow w4>";
     versions := [version_with "2.0" 20 []; version_with "1.1" 20 []; version_with "1.0" 10 []];
     subscribers := [alice] |}.

(** A version whose lock cannot be taken, and a workflow that has it
    between two versions that can be refreshed. *)
Definition locked_version (v : string) (t : Z) : WorkflowVersion :=
  {| version := v; version_created := t; submitter := Some alice;
     transaction := Raise (OtherException "lock not acquired");
     login_user := Ok tt; rocrate_download := Ok tt; logout_user := Ok tt;
     test_suites := [] |}.

Definition scenario_locked : Workflow :=
  {| uuid := "w6";
     workflow_repr := "<Workflow w6>";
     versions := [version_with "2.0" 20 []; locked_version "1.1" 15; version_with "1.0" 10 []];
     subscribers := [alice] |}.

(** A workflow whose first instance cannot be reached and whose second
    instance has a single, failed build. *)
Definition pending_instance : TestInstance :=
  instance_with_builds "i2" [build "7" FAILED].

Definition scenario_skip : Workflow :=
  workflow_with "w2" [unreachable_instance "i1" "service unavailable"; pending_instance].

End Scenarios.

(** ** The status objects and the health check *)

Module StatusObjects.
Import Status.

(** The first exception of the gateway that [check_status] does not catch,
    in the order of the scan. *)
Fixpoint first_fault (l : list TestInstance) : option Exception :=
  match l with
  | [] => None
  | i :: l' =>
      match last_test_build i with
      | Ok _ => first_fault l'
      | Raise (TestingServiceException _) => first_fault l'
      | Raise e => Some e
      end
  end.

(** [SuiteStatus.__init__]: the three attributes are what
    [Status.check_status([suite])] returns. *)
Definition SuiteStatus (suite : TestSuite) : result Acc :=
  check_status [suite].

(** [WorkflowStatus.__init__], called by [WorkflowVersion.status] with the
    version: the three attributes are what
    [WorkflowStatus.check_status(self.workflow.test_suites)] returns. *)
Definition WorkflowStatus (workflow : Tasks.WorkflowVersion) : result Acc :=
  check_status (Tasks.test_suites workflow).

(** The issue [check_status] records for a suite without test instances. *)
Definition no_instances_issue (suite : TestSuite) : Issue :=
  [("issue", VStr ("No test instances configured for suite " +:+ suite_repr suite))].

(** The value of [health["healthy"]] in [check_health]: [True], [False] or
    the string ["Unknown"]. *)
Inductive Healthy :=
| Healthy_True
| Healthy_False
| Healthy_Unknown.

(** The dict [check_health] builds. *)
Record Health := {
  healthy : Healthy;
  issues : list string
}.

(** The body of the loop of [check_health] for one test instance: the
    latest build is read through the testing service of the instance; without
    a build, [None.is_successful()] is an [AttributeError], which the
    [except] does not catch. *)
Definition check_instance_health (test_instance : TestInstance) (health : Health)
    : result Health :=
  match last_test_build test_instance with
  | Ok (Some b) =>
      if negb (is_successful b)
      then Ok {| healthy := Healthy_False; issues := issues health |}
      else Ok health
  | Ok None => Raise AttributeError
  | Raise (TestingServiceException msg) =>
      Ok {| healthy := Healthy_Unknown; issues := (issues health ++ [msg])%list |}
  | Raise e => Raise e
  end.

(** [WorkflowVersion.check_health] (and [Workflow.check_health], which has
    the same body), over the test suites of the version. *)
Definition check_health (suites : list TestSuite) : result Health :=
  foldM (fun suite health => foldM check_instance_health (test_instances suite) health)
        suites {| healthy := Healthy_True; issues := [] |}.

(** [WorkflowVersion.is_healthy] *)
Definition is_healthy (suites : list TestSuite) : result Healthy :=
  rbind (check_health suites) (fun health => Ok (healthy health)).

(** What one instance says about the health, when it does not pass. *)
Definition verdict (i : TestInstance) : option Healthy :=
  match last_test_build i with
  | Ok (Some b) => if is_successful b then None else Some Healthy_False
  | Raise (TestingServiceException _) => Some Healthy_Unknown
  | _ => None
  end.

(** The text of the service error of an instance, if it has one. *)
Definition service_error (i : TestInstance) : option string :=
  match last_test_build i with
  | Raise (TestingServiceException msg) => Some msg
  | _ => None
  end.

(** The gateway answered with a build, or failed with its own error class. *)
Definition health_readable (i : TestInstance) : Prop :=
  match last_test_build i with
  | Ok (Some _) => True
  | Raise (TestingServiceException _) => True
  | _ => False
  end.

End StatusObjects.

(** ** workflows.py: the versions of a workflow *)

Module Workflows.
Import Tasks.

(** [lm_exceptions.LifeMonitorException('Value error', detail=message)] *)
Definition LifeMonitorException_value_error : Exception :=
  OtherException "Value error".

(** [values.index(self)].  The collection [workflow.versions] is mapped by
    the attribute [version], so a version of the workflow is found under its
    own key. *)
Fixpoint index_of (self : WorkflowVersion) (values : list WorkflowVersion) : option nat :=
  match values with
  | [] => None
  | v :: vs =>
      if String.eqb (version v) (version self) then Some 0%nat
      else option_map S (index_of self vs)
  end.

(** [WorkflowVersion._get_relative_version], for the version [self] of the
    workflow [w]. *)
Definition _get_relative_version (w : Workflow) (self : WorkflowVersion)
    (delta_index : Z) : result (option WorkflowVersion) :=
  let values := versions w in
  match index_of self values with
  | None => Raise LifeMonitorException_value_error
  | Some self_index =>
      let index := (Z.of_nat self_index + delta_index)%Z in
      if (0 <=? index)%Z && (index <? Z.of_nat (length values))%Z
      then Ok (values !! Z.to_nat (Z.of_nat self_index + delta_index))
      else Ok None
  end.

(** [WorkflowVersion.previous_version] and [WorkflowVersion.next_version] *)
Definition previous_version (w : Workflow) (self : WorkflowVersion)
    : result (option WorkflowVersion) :=
  _get_relative_version w self 1.

Definition next_version (w : Workflow) (self : WorkflowVersion)
    : result (option WorkflowVersion) :=
  _get_relative_version w self (-1).

(** [WorkflowVersion.is_latest] *)
Definition is_latest (w : Workflow) (self : WorkflowVersion) : result bool :=
  rbind (latest_version w) (fun latest => Ok (String.eqb (version latest) (version self))).

(** The keys of the mapped collection are distinct. *)
Definition distinct_keys (w : Workflow) : Prop :=
  NoDup (map version (versions w)).

End Workflows.

(** ** What the jobs of tasks.py select and leave *)

Module TasksViews.
Import Tasks.

(** [n.delete()] returns. *)
Definition deletes (delete_outcome : Notification -> result unit) (n : Notification) : bool :=
  match delete_outcome n with
  | Ok _ => true
  | Raise _ => false
  end.

(** The notification is older than the run of the purge at [current_time]. *)
Definition old (current_time : Z) (n : Notification) : bool :=
  bool_decide (created n < current_time)%Z.

(** The row [m] has the identifier of a notification of [l] whose deletion
    returns. *)
Definition hit (delete_outcome : Notification -> result unit) (l : list Notification)
    (m : Notification) : bool :=
  existsb (fun n => deletes delete_outcome n
                    && (notification_id n =? notification_id m)%nat) l.

(** The body of the loop of [cleanup_notifications]. *)
Definition purge_step (delete_outcome : Notification -> result unit) (n : Notification)
    (count : nat) : task nat :=
  try_except
    (bind (delete delete_outcome n) (fun _ => ret (count + 1)%nat))
    (fun _ =>
       bind (logger_error ("Error when deleting notification " +:+ name n))
            (fun _ => ret count)).

(** The message [cleanup_notifications] logs for a failed deletion. *)
Definition deletion_error (n : Notification) : string :=
  "Error when deleting notification " +:+ name n.

(** The notification is one [send_email_notifications] processes: some
    recipient has no emailed time, and it is not an
    [UnconfiguredEmailNotification]. *)
Definition selected (n : Notification) : bool :=
  existsb (fun u => bool_decide (emailed u = None)) (users n)
  && negb (isinstance_UnconfiguredEmailNotification n).

(** The transport accepts the notification. *)
Definition sends (send_notification : Notification -> list string -> option Z)
    (n : Notification) : bool :=
  match send_notification n (recipients_of n) with
  | Some _ => true
  | None => false
  end.

(** The row of a processed notification after the dispatch. *)
Definition row_after (send_notification : Notification -> list string -> option Z)
    (n : Notification) : Notification :=
  match send_notification n (recipients_of n) with
  | Some sent => delivered n sent
  | None => n
  end.

(** What one iteration of the loop of [send_email_notifications] does to
    the table. *)
Definition write_back (send_notification : Notification -> list string -> option Z)
    (n : Notification) (tbl : list Notification) : list Notification :=
  match send_notification n (recipients_of n) with
  | Some sent =>
      map (fun m => if (notification_id m =? notification_id n)%nat
                    then delivered n sent else m) tbl
  | None => tbl
  end.

(** The row of [m] after the notifications of [l] were processed. *)
Definition row_of (send_notification : Notification -> list string -> option Z)
    (l : list Notification) (m : Notification) : Notification :=
  match find (fun n => (notification_id m =? notification_id n)%nat) l with
  | Some n =>
      match send_notification n (recipients_of n) with
      | Some sent => delivered n sent
      | None => m
      end
  | None => m
  end.

(** The identifiers of the rows are distinct. *)
Definition distinct_ids (st : State) : Prop :=
  NoDup (map notification_id (notifications st)).

(** The RO-Crates [check_workflows] refreshes for a workflow, and the
    errors it logs for it, when the lock of every version is acquired. *)
Definition refreshed (w : Workflow) : list (string * string) :=
  omap (fun v => match refresh_outcome v with
                 | Ok _ => Some (uuid w, version v)
                 | Raise _ => None
                 end) (versions w).

Definition refresh_errors (w : Workflow) : list string :=
  omap (fun v => match refresh_outcome v with
                 | Ok _ => None
                 | Raise e =>
                     Some ("Error when updating the workflow " +:+ workflow_repr w
                           +:+ ": " +:+ str_exception e)
                 end) (versions w).

Definition locks_acquired (w : Workflow) : Prop :=
  Forall (fun v => transaction v = Ok tt) (versions w).

(** A notification as [check_last_build] creates them at time [now] for one
    of the workflows [ws]: a workflow status notification for the
    subscribers of the workflow, none of them emailed yet. *)
Definition created_by_pass (now : Z) (ws : list Workflow) (n : Notification) : Prop :=
  class n = WorkflowStatusNotification
  /\ created n = now
  /\ Forall (fun u => emailed u = None) (users n)
  /\ exists w, In w ws /\ map user (users n) = subscribers w.

(** The table of [st'] is the table of [st] followed by notifications
    whose names differ from each other and from every name in the table of
    [st]. *)
Definition adds_fresh (st st' : State) : Prop :=
  exists added,
    notifications st' = (notifications st ++ added)%list
    /\ NoDup (map name added)
    /\ Forall (fun n => find_by_name (name n) (notifications st) = []) added.

(** The test instances [check_last_build] may visit for a workflow. *)
Definition latest_instances (w : Workflow) : list TestInstance :=
  match latest_version w with
  | Ok latest => concat (map test_instances (test_suites latest))
  | Raise _ => []
  end.

End TasksViews.

(** ** tasks.py: check_email_configuration *)

Module EmailConfiguration.
Import Tasks.

(** The rows of class [UnconfiguredEmailNotification], the only ones the
    job reads and writes: the name of the notification and its users. *)
Record UnconfiguredEmail := {
  ue_name : string;
  ue_users : list User
}.

(** Modelled from the spec: [UnconfiguredEmailNotification.find_by_user]
    belongs to [lifemonitor.auth.models]; the job flags a user once, so the
    query is the notifications of this class that have the user among their
    users. *)
Definition find_by_user (u : User) (tbl : list UnconfiguredEmail) : list UnconfiguredEmail :=
  List.filter (fun n => existsb (fun x => (user_id x =? user_id u)%nat) (ue_users n)) tbl.

(** How a run ends: it returns, having logged its count, or the handler
    of its [except] raises: [n] is read there, and it is not bound when the
    exception comes before the notification is built. *)
Inductive Completion :=
| Returned (count : nat)
| UnboundLocalError.

(** The condition of the [if] in the loop over the users. *)
Definition to_flag (tbl : list UnconfiguredEmail) (u : User) : bool :=
  negb (truthy (email u)) && (length (find_by_user u tbl) =? 0)%nat.

(** The loop over the users: [users] and [count]. *)
Fixpoint collect (tbl : list UnconfiguredEmail) (all : list User)
    (users : list User) (count : nat) : list User * nat :=
  match all with
  | [] => (users, count)
  | u :: rest =>
      if to_flag tbl u
      then collect tbl rest (users ++ [u])%list (count + 1)
      else collect tbl rest users count
  end.

(** [check_email_configuration], on the table of the notifications of the
    class; [all_users] is what [User.all()] does, the list of the users or
    the exception it raises. *)
Definition check_email_configuration (all_users : result (list User))
    (tbl : list UnconfiguredEmail) : list UnconfiguredEmail * Completion :=
  match all_users with
  | Ok all =>
      let (users, count) := collect tbl all [] 0 in
      if (0 <? length users)%nat
      then ((tbl ++ [{| ue_name := "Unconfigured email"; ue_users := users |}])%list,
            Returned count)
      else (tbl, Returned count)
  | Raise _ => (tbl, UnboundLocalError)
  end.

End EmailConfiguration.

(** ** utils.py: the request kept in the session *)

Module Utils.

(** A value kept in the session: [None], a string, or the items of a
    dict of strings. *)
Inductive SessionValue :=
| VNone
| VText (s : string)
| VItems (items : list (string * string)).

(** Python's truth value of a session value. *)
Definition truth (v : SessionValue) : bool :=
  match v with
  | VNone => false
  | VText s => negb (String.eqb s EmptyString)
  | VItems items => negb (length items =? 0)%nat
  end.

(** What the functions read of [flask.request]. *)
Record Request := {
  endpoint : option string;
  args : list (string * string);
  form : list (string * string)
}.

Definition endpoint_value (r : Request) : SessionValue :=
  match endpoint r with
  | Some e => VText e
  | None => VNone
  end.

(** The dict [pop_request_from_session] returns. *)
Record Popped := {
  popped_endpoint : SessionValue;
  popped_args : SessionValue;
  popped_form : SessionValue
}.

(** A call returns a value, or raises the [KeyError] of a missing key. *)
Inductive outcome (A : Type) :=
| Returns (a : A)
| KeyError (key : string).
Arguments Returns {A} a.
Arguments KeyError {A} key.

Definition endpoint_key (name : string) : string := name +:+ "_next_endpoint".
Definition args_key (name : string) : string := name +:+ "_next_args".
Definition forms_key (name : string) : string := name +:+ "_next_forms".

(** [push_request_to_session], on the session and the current request. *)
Definition push_request_to_session (name : string) (request : Request)
    (session : gmap string SessionValue) : gmap string SessionValue :=
  <[forms_key name := VItems (form request)]>
    (<[args_key name := VItems (args request)]>
       (<[endpoint_key name := endpoint_value request]> session)).

(** [pop_request_from_session]: the value returned, or the [KeyError], and
    the session the call leaves. *)
Definition pop_request_from_session (name : string) (session : gmap string SessionValue)
    : outcome (option Popped) * gmap string SessionValue :=
  let endpoint := default VNone (session !! endpoint_key name) in
  let session := delete (endpoint_key name) session in
  if truth endpoint then
    match session !! args_key name with
    | None => (KeyError (args_key name), session)
    | Some a =>
        let session := delete (args_key name) session in
        match session !! forms_key name with
        | None => (KeyError (forms_key name), session)
        | Some f =>
            (Returns (Some {| popped_endpoint := endpoint; popped_args := a;
                              popped_form := f |}),
             delete (forms_key name) session)
        end
    end
  else (Returns None, session).

End Utils.

(** * Properties of status.py *)

Module StatusProofs.
Import Status.

(** ** The reduction of build outcomes *)

Lemma fold_some_passing (l : list bool) :
  fold_left _update_status l SOME_PASSING = SOME_PASSING.
Proof. induction l as [|b l IH]; simpl; auto. Qed.

Lemma fold_all_passing (l : list bool) :
  fold_left _update_status l ALL_PASSING =
    if forallb (fun b => b) l then ALL_PASSING else SOME_PASSING.
Proof.
  induction l as [|b l IH]; simpl; [reflexivity|].
  destruct b; simpl; [exact IH | apply fold_some_passing].
Qed.

Lemma fold_all_failing (l : list bool) :
  fold_left _update_status l ALL_FAILING =
    if forallb negb l then ALL_FAILING else SOME_PASSING.
Proof.
  induction l as [|b l IH]; simpl; [reflexivity|].
  destruct b; simpl; [apply fold_some_passing | exact IH].
Qed.

Lemma aggregate_expected (l : list bool) : aggregate l = expected_status l.
Proof.
  unfold aggregate. destruct l as [|b l]; [reflexivity|].
  destruct b; simpl.
  - rewrite fold_all_passing. destruct (forallb _ l); reflexivity.
  - rewrite fold_all_failing. destruct (forallb negb l); reflexivity.
Qed.

Lemma forallb_permutation {A} (p : A -> bool) (l l' : list A) :
  Permutation l l' -> forallb p l = forallb p l'.
Proof.
  induction 1 as [| x l l' _ IH | x y l | l l' l'' _ IH1 _ IH2]; simpl.
  - reflexivity.
  - now rewrite IH.
  - destruct (p x), (p y); reflexivity.
  - congruence.
Qed.

Lemma expected_status_permutation (l l' : list bool) :
  Permutation l l' -> expected_status l = expected_status l'.
Proof.
  intros HP. unfold expected_status.
  rewrite (forallb_permutation (fun b => b) _ _ HP).
  rewrite (forallb_permutation negb _ _ HP).
  destruct l as [|b l], l' as [|b' l']; try reflexivity.
  - apply Permutation_nil in HP. discriminate.
  - symmetry in HP. apply Permutation_nil in HP. discriminate.
Qed.

(** ** The scan of [check_status] *)

(** One instance whose gateway behaves: the step always returns, and it
    adds the build, or else the issue. *)
Lemma check_instance_behaves (i : TestInstance) (a : Acc) :
  gateway_behaves i ->
  check_instance i a =
    Ok {| acc_status :=
            fold_left _update_status (map is_successful (option_list (fetched_build i)))
                      (acc_status a);
          latest_builds := latest_builds a ++ option_list (fetched_build i);
          availability_issues := availability_issues a ++ option_list (instance_issue i) |}.
Proof.
  unfold gateway_behaves, check_instance, fetched_build, instance_issue, append_issue.
  destruct a as [st bs iss]; simpl.
  destruct (last_test_build i) as [[b|]|[]]; simpl; intros H;
    try contradiction; rewrite ?app_nil_r; reflexivity.
Qed.

Lemma check_instances_behave (l : list TestInstance) (a : Acc) :
  Forall gateway_behaves l ->
  foldM check_instance l a =
    Ok {| acc_status :=
            fold_left _update_status (map is_successful (omap fetched_build l)) (acc_status a);
          latest_builds := latest_builds a ++ omap fetched_build l;
          availability_issues := availability_issues a ++ omap instance_issue l |}.
Proof.
  intros H. revert a. induction H as [|i l Hi _ IH]; intros a; simpl.
  - rewrite !app_nil_r. destruct a; reflexivity.
  - rewrite (check_instance_behaves i a Hi). simpl. rewrite IH. simpl.
    f_equal. f_equal.
    + destruct (fetched_build i); reflexivity.
    + destruct (fetched_build i); simpl; [|rewrite app_nil_r; reflexivity].
      rewrite <- app_assoc. reflexivity.
    + destruct (instance_issue i); simpl; [|rewrite app_nil_r; reflexivity].
      rewrite <- app_assoc. reflexivity.
Qed.

Lemma check_suite_behaves (s : TestSuite) (a : Acc) :
  Forall gateway_behaves (test_instances s) ->
  check_suite s a =
    Ok {| acc_status :=
            fold_left _update_status
                      (map is_successful (omap fetched_build (test_instances s)))
                      (acc_status a);
          latest_builds := latest_builds a ++ omap fetched_build (test_instances s);
          availability_issues := availability_issues a ++ suite_issues s |}.
Proof.
  intros H. unfold check_suite, suite_issues.
  rewrite (check_instances_behave _ _ H).
  destruct (length (test_instances s) =? 0)%nat; simpl.
  - rewrite <- app_assoc. reflexivity.
  - reflexivity.
Qed.

Lemma check_suites_behave (suites : list TestSuite) (a : Acc) :
  Forall gateway_behaves (all_instances suites) ->
  foldM check_suite suites a =
    Ok {| acc_status :=
            fold_left _update_status (map is_successful (fetched_builds suites))
                      (acc_status a);
          latest_builds := latest_builds a ++ fetched_builds suites;
          availability_issues :=
            availability_issues a ++ concat (map suite_issues suites) |}.
Proof.
  unfold fetched_builds, all_instances. revert a.
  induction suites as [|s suites IH]; intros a H; simpl in *.
  - rewrite !app_nil_r. destruct a; reflexivity.
  - apply Forall_app in H as [Hs Hrest].
    rewrite (check_suite_behaves s a Hs). simpl.
    rewrite (IH _ Hrest). simpl.
    rewrite omap_app, map_app, fold_left_app, <- !app_assoc. reflexivity.
Qed.

Lemma check_status_behaves (suites : list TestSuite) :
  Forall gateway_behaves (all_instances suites) ->
  check_status suites =
    Ok {| acc_status := aggregate (map is_successful (fetched_builds suites));
          latest_builds := fetched_builds suites;
          availability_issues := scan_issues suites |}.
Proof.
  intros H. unfold check_status, scan_issues, aggregate.
  rewrite (check_suites_behave _ _ H).
  destruct (length suites =? 0)%nat; reflexivity.
Qed.

Lemma service_issue_reported (suites : list TestSuite) (i : TestInstance) (msg : string) :
  In i (all_instances suites) ->
  last_test_build i = Raise (TestingServiceException msg) ->
  In (service_issue i msg) (scan_issues suites).
Proof.
  intros Hin Hraise. unfold scan_issues. apply in_or_app. right.
  unfold all_instances in Hin.
  apply in_concat in Hin as (l & Hl & Hi).
  apply in_map_iff in Hl as (s & <- & Hs).
  apply in_concat. exists (suite_issues s). split.
  - apply in_map. exact Hs.
  - unfold suite_issues. apply in_or_app. right.
    apply list_elem_of_In, list_elem_of_omap. exists i. split.
    + apply list_elem_of_In. exact Hi.
    + unfold instance_issue. rewrite Hraise. reflexivity.
Qed.

Lemma build_or_issue (i : TestInstance) :
  gateway_behaves i ->
  (exists b, fetched_build i = Some b /\ instance_issue i = None)
  \/ (exists iss, fetched_build i = None /\ instance_issue i = Some iss).
Proof.
  unfold gateway_behaves, fetched_build, instance_issue.
  destruct (last_test_build i) as [[b|]|[]]; intros H; try contradiction; eauto.
Qed.

Lemma instances_counted (l : list TestInstance) :
  Forall gateway_behaves l ->
  (length (omap fetched_build l) + length (omap instance_issue l) = length l)%nat.
Proof.
  induction 1 as [|i l Hi _ IH]; simpl; [reflexivity|].
  unfold omap in *.
  destruct (build_or_issue i Hi) as [(b & -> & ->)|(iss & -> & ->)]; simpl; lia.
Qed.

Lemma suite_counted (s : TestSuite) :
  Forall gateway_behaves (test_instances s) ->
  (length (omap fetched_build (test_instances s)) + length (suite_issues s)
   = length (test_instances s) + length (empty_suites [s]))%nat.
Proof.
  intros H. pose proof (instances_counted _ H) as Hc.
  unfold suite_issues, empty_suites. rewrite length_app, filter_cons.
  unfold omap in *.
  destruct (test_instances s) as [|i l]; simpl in *; lia.
Qed.

Lemma suites_counted (suites : list TestSuite) :
  Forall gateway_behaves (all_instances suites) ->
  (length (fetched_builds suites) + length (concat (map suite_issues suites))
   = length (all_instances suites) + length (empty_suites suites))%nat.
Proof.
  unfold fetched_builds, all_instances.
  induction suites as [|s suites IH]; intros H; simpl in *; [reflexivity|].
  apply Forall_app in H as [Hs Hrest]. specialize (IH Hrest).
  pose proof (suite_counted _ Hs) as Hc.
  change (empty_suites (s :: suites)) with (empty_suites ([s] ++ suites)).
  unfold empty_suites in *. rewrite filter_app.
  rewrite omap_app, !length_app. lia.
Qed.

Lemma check_instance_folded (i : TestInstance) (a a' : Acc) :
  status_folded a -> check_instance i a = Ok a' -> status_folded a'.
Proof.
  unfold status_folded, check_instance, aggregate. intros Ha.
  destruct (last_test_build i) as [[b|]|[]]; intros H; try discriminate;
    injection H as <-; simpl; auto.
  rewrite map_app, fold_left_app, <- Ha. reflexivity.
Qed.

Lemma foldM_invariant {A S} (P : S -> Prop) (f : A -> S -> result S) (l : list A) :
  (forall x s s', P s -> f x s = Ok s' -> P s') ->
  forall s s', P s -> foldM f l s = Ok s' -> P s'.
Proof.
  intros Hf. induction l as [|x l IH]; simpl; intros s s' Hs H.
  - injection H as <-. exact Hs.
  - destruct (f x s) as [s1|e] eqn:E; simpl in H; [|discriminate].
    eapply IH; [|exact H]. eapply Hf; eauto.
Qed.

Lemma check_suite_folded (s : TestSuite) (a a' : Acc) :
  status_folded a -> check_suite s a = Ok a' -> status_folded a'.
Proof.
  unfold check_suite. intros Ha.
  apply (foldM_invariant status_folded check_instance); [apply check_instance_folded|].
  destruct (length (test_instances s) =? 0)%nat; exact Ha.
Qed.

Lemma check_status_folded (suites : list TestSuite) (a : Acc) :
  check_status suites = Ok a -> status_folded a.
Proof.
  unfold check_status.
  apply (foldM_invariant status_folded check_suite); [apply check_suite_folded|].
  destruct (length suites =? 0)%nat; reflexivity.
Qed.

(** ** The claims on status.py *)

(** C1. The fold rule of [_update_status], for every current status and
    every outcome of a build: from [NOT_AVAILABLE] a passing build gives
    [ALL_PASSING] and a failing one [ALL_FAILING]; from [ALL_PASSING] a
    failing build gives [SOME_PASSING]; from [ALL_FAILING] a passing build
    gives [SOME_PASSING]; in every other case, and always from
    [SOME_PASSING], the status is unchanged. *)
Theorem update_status_rule (current_status : AggregateTestStatus) (build_passing : bool) :
  _update_status current_status build_passing =
    match current_status, build_passing with
    | NOT_AVAILABLE, true => ALL_PASSING
    | NOT_AVAILABLE, false => ALL_FAILING
    | ALL_PASSING, false => SOME_PASSING
    | ALL_FAILING, true => SOME_PASSING
    | _, _ => current_status
    end.
Proof. destruct current_status, build_passing; reflexivity. Qed.

(** C9. Status aggregation does not depend on the order of the builds:
    folding any permutation of a list of outcomes gives the same status,
    which is [NOT_AVAILABLE] for the empty list, [ALL_PASSING] when all
    pass, [ALL_FAILING] when all fail and [SOME_PASSING] when they are
    mixed; and the status [check_status] returns is this fold of the
    builds it returns. *)
Theorem aggregate_order_independent (outcomes outcomes' : list bool) :
  Permutation outcomes outcomes' ->
  aggregate outcomes' = aggregate outcomes
  /\ aggregate outcomes = expected_status outcomes
  /\ forall suites a,
       check_status suites = Ok a ->
       acc_status a = aggregate (map is_successful (latest_builds a)).
Proof.
  intros HP. split; [|split].
  - rewrite !aggregate_expected. symmetry. apply expected_status_permutation, HP.
  - apply aggregate_expected.
  - intros suites a Hrun. exact (check_status_folded _ _ Hrun).
Qed.

Lemma aggregate_order_independent_witness :
  Permutation [true; false; true] [false; true; true]
  /\ aggregate [false; true; true] = aggregate [true; false; true].
Proof.
  split.
  - apply perm_swap.
  - apply (aggregate_order_independent [true; false; true] [false; true; true]).
    apply perm_swap.
Defined.

(** C5. When the gateway raises a testing-service error for a test
    instance, [check_status] records an availability issue with the URL of
    the service and the text of the error, goes on with the remaining
    instances, computes the status from the builds it could fetch and
    raises nothing; each instance adds one build to the outcomes, or else
    one availability issue. *)
Theorem check_status_gateway_failure (suites : list TestSuite) :
  Forall gateway_behaves (all_instances suites) ->
  exists issues,
    check_status suites =
      Ok {| acc_status := aggregate (map is_successful (fetched_builds suites));
            latest_builds := fetched_builds suites;
            availability_issues := issues |}
    /\ (forall i msg,
          In i (all_instances suites) ->
          last_test_build i = Raise (TestingServiceException msg) ->
          In [("service", VStr (testing_service_url i));
              ("resource", VStr (resource i));
              ("issue", VStr msg)] issues)
    /\ (length (fetched_builds suites) + length issues
        = length (all_instances suites) + length (empty_suites suites)
          + (if suites is [] then 1 else 0))%nat
    /\ (forall i a,
          In i (all_instances suites) ->
          exists a',
            check_instance i a = Ok a'
            /\ ((exists b,
                   last_test_build i = Ok (Some b)
                   /\ acc_status a' = _update_status (acc_status a) (is_successful b)
                   /\ latest_builds a' = (latest_builds a ++ [b])%list
                   /\ availability_issues a' = availability_issues a)
                \/ (exists iss,
                      fetched_build i = None
                      /\ acc_status a' = acc_status a
                      /\ latest_builds a' = latest_builds a
                      /\ availability_issues a' = (availability_issues a ++ [iss])%list))).
Proof.
  intros H. exists (scan_issues suites). split; [|split; [|split]].
  - apply check_status_behaves, H.
  - intros i msg Hin Hraise. apply (service_issue_reported suites i msg Hin Hraise).
  - pose proof (suites_counted suites H) as Hc. unfold scan_issues.
    rewrite length_app. destruct suites; simpl in *; lia.
  - intros i a Hin. rewrite Forall_forall in H.
    specialize (H i (proj2 (list_elem_of_In _ _) Hin)).
    unfold gateway_behaves in H. unfold check_instance, fetched_build.
    destruct (last_test_build i) as [[b|]|[]]; try contradiction;
      eexists; (split; [reflexivity|]); simpl; eauto 10.
Qed.

Lemma check_status_gateway_failure_witness :
  Forall gateway_behaves (all_instances Scenarios.scenario_F)
  /\ exists issues,
       check_status Scenarios.scenario_F =
         Ok {| acc_status := SOME_PASSING;
               latest_builds := [Scenarios.build "11" PASSED; Scenarios.build "31" FAILED];
               availability_issues := issues |}.
Proof.
  assert (Hg : Forall gateway_behaves (all_instances Scenarios.scenario_F)).
  { repeat constructor. }
  split; [exact Hg|].
  destruct (check_status_gateway_failure Scenarios.scenario_F Hg) as (issues & Hrun & _).
  exists issues. exact Hrun.
Defined.

End StatusProofs.

(** * Properties of tasks.py *)

Module TasksProofs.
Import Tasks.
Local Open Scope task_scope.

(** ** Loops in the task monad *)

Lemma for_each_nil {A} (f : A -> task unit) (st : State) :
  for_each [] f st = (st, Ok tt).
Proof. reflexivity. Qed.

Lemma for_each_cons {A} (f : A -> task unit) (x : A) (l : list A) (st : State) :
  for_each (x :: l) f st =
    match f x st with
    | (st', Ok _) => for_each l f st'
    | (st', Raise e) => (st', Raise e)
    end.
Proof.
  unfold for_each; simpl. unfold bind.
  destruct (f x st) as [st' [[]|e]]; reflexivity.
Qed.

Lemma for_each_app {A} (f : A -> task unit) (l1 l2 : list A) (st : State) :
  for_each (l1 ++ l2) f st =
    match for_each l1 f st with
    | (st', Ok _) => for_each l2 f st'
    | (st', Raise e) => (st', Raise e)
    end.
Proof.
  revert st. induction l1 as [|x l1 IH]; intros st; simpl.
  - reflexivity.
  - rewrite !for_each_cons. destruct (f x st) as [st' [[]|e]]; [apply IH | reflexivity].
Qed.

Lemma for_each_concat {A} (f : A -> task unit) (ls : list (list A)) (st : State) :
  for_each ls (fun l => for_each l f) st = for_each (concat ls) f st.
Proof.
  revert st. induction ls as [|l ls IH]; intros st; simpl.
  - reflexivity.
  - rewrite for_each_cons, for_each_app.
    destruct (for_each l f st) as [st' [[]|e]]; [apply IH | reflexivity].
Qed.

Lemma for_each_map {A B} (g : A -> B) (f : B -> task unit) (l : list A) (st : State) :
  for_each (map g l) f st = for_each l (fun x => f (g x)) st.
Proof.
  revert st. induction l as [|x l IH]; intros st; simpl.
  - reflexivity.
  - rewrite !for_each_cons. destruct (f (g x) st) as [st' [[]|e]]; [apply IH | reflexivity].
Qed.

(** ** One test instance of the polling job *)

Lemma refresh_loop (i : TestInstance) (builds : list TestBuild) (st : State) :
  for_each builds (fun b => do _b <- lift (get_test_build i (build_id b)); ret tt) st
  = (st, refresh_builds i builds).
Proof.
  unfold refresh_builds. induction builds as [|b builds IH].
  - reflexivity.
  - rewrite for_each_cons. unfold bind, lift, ret. simpl.
    destruct (get_test_build i (build_id b)) as [x|e]; simpl; [exact IH | reflexivity].
Qed.

Lemma find_by_name_absent (nm : string) (ns : list Notification) :
  (length (find_by_name nm ns) =? 0)%nat = true <-> ~ In nm (map name ns).
Proof.
  unfold find_by_name. induction ns as [|n ns IH]; simpl.
  - split; auto.
  - rewrite filter_cons. destruct (decide (name n = nm)) as [E|E]; simpl.
    + split; [discriminate | intros H; exfalso; apply H; left; exact E].
    + rewrite IH. split; [intros H [H1|H1]; [exact (E H1) | exact (H H1)] | tauto].
Qed.

(** [check_test_instance] split in what it decides and what it writes. *)
Lemma check_test_instance_unfold (now : Z) (w : Workflow) (i : TestInstance) (st : State) :
  check_test_instance now w i st =
    match wanted_notification i with
    | Raise e => (st, Raise e)
    | Ok None => (st, Ok tt)
    | Ok (Some (ev, nm, b)) =>
        if (length (find_by_name nm (notifications st)) =? 0)%nat
        then save (new_WorkflowStatusNotification now ev nm b (subscribers w)) st
        else (st, Ok tt)
    end.
Proof.
  unfold check_test_instance, wanted_notification.
  unfold bind at 1. unfold lift at 1.
  destruct (get_test_builds i 10) as [builds|e]; simpl; [|reflexivity].
  unfold bind at 1. rewrite refresh_loop.
  destruct (refresh_builds i builds) as [[]|e]; simpl; [|reflexivity].
  unfold bind at 1. unfold lift at 1.
  destruct (last_test_build i) as [last|e]; simpl; [|reflexivity].
  unfold bind at 1. unfold lift at 1.
  destruct last as [last_build|]; simpl; [|reflexivity].
  unfold bind at 1. unfold lift at 1.
  destruct (check_state_transition builds last_build) as [[ev|]|e]; simpl;
    try reflexivity.
  unfold bind, get_notifications.
  destruct (length (find_by_name _ (notifications st)) =? 0)%nat; reflexivity.
Qed.

Lemma covered_mono (st st2 : State) (i : TestInstance) :
  incl (names st) (names st2) -> covered st i -> covered st2 i.
Proof.
  unfold covered. destruct (wanted_notification i) as [[[[ev nm] b]|]|e]; auto.
Qed.

(** What one instance does to the state. *)
Lemma instance_step (now : Z) (w : Workflow) (i : TestInstance) (st : State) :
  let res := check_test_instance now w i st in
  updated res.1 = updated st
  /\ errors res.1 = errors st
  /\ incl (names st) (names res.1)
  /\ (NoDup (names st) -> NoDup (names res.1))
  /\ res.2 = rbind (wanted_notification i) (fun _ => Ok tt)
  /\ covered res.1 i.
Proof.
  cbv zeta. rewrite check_test_instance_unfold. unfold covered.
  destruct (wanted_notification i) as [[[[ev nm] b]|]|e]; simpl;
    try (repeat split; auto using incl_refl; fail).
  destruct (length (find_by_name nm (notifications st)) =? 0)%nat eqn:E.
  - apply find_by_name_absent in E. unfold names in *. simpl.
    rewrite map_app. simpl. repeat split.
    + apply incl_appl, incl_refl.
    + intros Hnd. apply NoDup_app. repeat split; [exact Hnd | | apply NoDup_singleton].
      intros x Hx Hx'. apply list_elem_of_In in Hx. apply list_elem_of_In in Hx'.
      destruct Hx' as [<-|[]]. exact (E Hx).
    + apply in_or_app. right. left. reflexivity.
  - simpl. repeat split; auto using incl_refl.
    destruct (in_dec string_dec nm (names st)) as [Hin|Hout]; [exact Hin|].
    apply find_by_name_absent in Hout. unfold names in *. congruence.
Qed.

(** An instance whose notification is in the table leaves the state as it is. *)
Lemma instance_settled (now : Z) (w : Workflow) (i : TestInstance) (st : State) :
  covered st i ->
  check_test_instance now w i st = (st, rbind (wanted_notification i) (fun _ => Ok tt)).
Proof.
  rewrite check_test_instance_unfold. unfold covered.
  destruct (wanted_notification i) as [[[[ev nm] b]|]|e]; simpl; try reflexivity.
  intros Hin.
  destruct (length (find_by_name nm (notifications st)) =? 0)%nat eqn:E; [|reflexivity].
  apply find_by_name_absent in E. contradiction.
Qed.

(** A scan of instances, and the same scan run again on a table that
    holds at least the names the first one left. *)
Lemma instances_pass (now : Z) (w : Workflow) (l : list TestInstance) (st : State) :
  let res := for_each l (check_test_instance now w) st in
  updated res.1 = updated st
  /\ errors res.1 = errors st
  /\ incl (names st) (names res.1)
  /\ (NoDup (names st) -> NoDup (names res.1))
  /\ forall now' st2,
       incl (names res.1) (names st2) ->
       for_each l (check_test_instance now' w) st2 = (st2, res.2).
Proof.
  cbv zeta. revert st. induction l as [|i l IH]; intros st.
  - simpl. repeat split; auto using incl_refl.
  - rewrite for_each_cons.
    pose proof (instance_step now w i st) as (Hu & He & Hi & Hn & Hr & Hc).
    destruct (check_test_instance now w i st) as [st1 r1]; simpl in *.
    destruct r1 as [[]|e].
    + destruct (IH st1) as (Hu' & He' & Hi' & Hn' & Hagain).
      repeat split; try congruence; auto.
      * eapply incl_tran; eauto.
      * intros now' st2 Hincl. rewrite for_each_cons.
        rewrite instance_settled, <- Hr.
        -- apply Hagain, Hincl.
        -- eapply covered_mono; [|exact Hc]. eapply incl_tran; eauto.
    + simpl. repeat split; auto.
      intros now' st2 Hincl. rewrite for_each_cons.
      rewrite instance_settled, <- Hr; [reflexivity|].
      unfold covered. destruct (wanted_notification i) as [[[[ev nm] b]|]|e']; auto.
      discriminate.
Qed.

(** ** Transition detection *)

Lemma BuildStatus_eqb_eq (a b : BuildStatus) : BuildStatus_eqb a b = true <-> a = b.
Proof. destruct a, b; simpl; split; intros H; try reflexivity; discriminate. Qed.

(** C2. For a list of builds, newest first, with at least two entries,
    the detection gives an event exactly when the newest and the second
    newest build both have a decisive status ([PASSED] or [FAILED]) and
    their statuses differ; the event is [BUILD_FAILED] when the newest build
    failed and [BUILD_RECOVERED] otherwise; with equal statuses or an
    indecisive one there is no event. *)
Theorem transition_of_two_builds (last prev : TestBuild) (rest : list TestBuild) :
  check_state_transition (last :: prev :: rest) last =
    Ok (if decisive (status last) && decisive (status prev)
           && negb (BuildStatus_eqb (status prev) (status last))
        then Some (if BuildStatus_eqb (status last) FAILED
                   then BUILD_FAILED else BUILD_RECOVERED)
        else None)
  /\ check_state_transition (last :: prev :: rest) last =
       Ok (match status last, status prev with
           | FAILED, PASSED => Some BUILD_FAILED
           | PASSED, FAILED => Some BUILD_RECOVERED
           | _, _ => None
           end).
Proof.
  unfold check_state_transition, transition_condition, index; simpl.
  destruct (status last), (status prev); simpl; split; reflexivity.
Qed.

(** C3. With exactly one build, a failed build gives the event
    [BUILD_FAILED] and a build of indecisive status gives none; a single
    passed build makes the condition read [builds[1]], which raises
    [IndexError]. *)
Theorem transition_of_single_build (id repr : string) (ok : bool) :
  let b st := {| build_id := id; build_repr := repr; status := st; is_successful := ok |} in
  check_state_transition [b FAILED] (b FAILED) = Ok (Some BUILD_FAILED)
  /\ check_state_transition [b OTHER] (b OTHER) = Ok None
  /\ check_state_transition [b PASSED] (b PASSED) = Raise IndexError.
Proof. repeat split. Qed.

(** ** The polling pass and its repetition *)

Lemma check_workflow_builds_unfold (now : Z) (w : Workflow) (st : State) :
  check_workflow_builds now w st =
    match latest_version w with
    | Ok latest =>
        for_each (concat (map test_instances (test_suites latest)))
                 (check_test_instance now w) st
    | Raise e => (st, Raise e)
    end.
Proof.
  unfold check_workflow_builds, bind, lift.
  destruct (latest_version w) as [latest|e]; [|reflexivity].
  rewrite <- for_each_concat, for_each_map. reflexivity.
Qed.

Lemma workflow_again (now : Z) (w : Workflow) (st : State) (r : result unit) :
  check_workflow_builds now w st = (st, r) ->
  (check_workflow_last_build now w st).2 = Ok tt
  /\ notifications (check_workflow_last_build now w st).1 = notifications st.
Proof.
  intros H. unfold check_workflow_last_build, try_except. rewrite H.
  destruct r as [[]|e]; split; reflexivity.
Qed.

Lemma workflow_pass (now : Z) (w : Workflow) (st : State) :
  let res := check_workflow_last_build now w st in
  res.2 = Ok tt
  /\ updated res.1 = updated st
  /\ incl (names st) (names res.1)
  /\ (NoDup (names st) -> NoDup (names res.1))
  /\ forall now' st2,
       incl (names res.1) (names st2) ->
       (check_workflow_last_build now' w st2).2 = Ok tt
       /\ notifications (check_workflow_last_build now' w st2).1 = notifications st2.
Proof.
  cbv zeta. unfold check_workflow_last_build at 1 2 3 4 5, try_except.
  rewrite check_workflow_builds_unfold.
  destruct (latest_version w) as [latest|e] eqn:EL.
  - pose proof (instances_pass now w (concat (map test_instances (test_suites latest))) st)
      as (Hu & He & Hi & Hn & Hagain).
    destruct (for_each _ (check_test_instance now w) st) as [st1 r1] eqn:E1; simpl in *.
    assert (Hsecond : forall now' st2, incl (names st1) (names st2) ->
              check_workflow_builds now' w st2 = (st2, r1)).
    { intros now' st2 Hincl. rewrite check_workflow_builds_unfold, EL.
      apply Hagain, Hincl. }
    assert (Hthen : forall now' st2, incl (names st1) (names st2) ->
              (check_workflow_last_build now' w st2).2 = Ok tt
              /\ notifications (check_workflow_last_build now' w st2).1 = notifications st2).
    { intros now' st2 Hincl. eapply workflow_again, Hsecond, Hincl. }
    destruct r1 as [[]|e]; simpl; (split; [|split; [|split; [|split]]]); auto.
  - simpl. (split; [|split; [|split; [|split]]]); auto using incl_refl.
    intros now' st2 _. apply (workflow_again now' w st2 (Raise e)).
    rewrite check_workflow_builds_unfold, EL. reflexivity.
Qed.

Lemma last_build_pass (now : Z) (ws : list Workflow) (st : State) :
  let res := check_last_build now ws st in
  res.2 = Ok tt
  /\ updated res.1 = updated st
  /\ incl (names st) (names res.1)
  /\ (NoDup (names st) -> NoDup (names res.1))
  /\ forall now' st2,
       incl (names res.1) (names st2) ->
       notifications (check_last_build now' ws st2).1 = notifications st2.
Proof.
  cbv zeta. unfold check_last_build. revert st.
  induction ws as [|w ws IH]; intros st.
  - simpl. repeat split; auto using incl_refl.
  - rewrite for_each_cons.
    pose proof (workflow_pass now w st) as (Hr & Hu & Hi & Hn & Hagain).
    destruct (check_workflow_last_build now w st) as [st1 r1]; simpl in *. subst r1.
    destruct (IH st1) as (Hr' & Hu' & Hi' & Hn' & Hagain').
    repeat split; auto; try congruence.
    + eapply incl_tran; eauto.
    + intros now' st2 Hincl. rewrite for_each_cons.
      destruct (Hagain now' st2) as (Hr2 & Hn2); [eapply incl_tran; eauto|].
      destruct (check_workflow_last_build now' w st2) as [st2' r2]; simpl in *. subst r2.
      rewrite <- Hn2. apply Hagain'. unfold names. rewrite Hn2. exact Hincl.
Qed.

Lemma wanted_notification_shape (i : TestInstance) (ev : EventType) (nm : string)
    (b : TestBuild) :
  wanted_notification i = Ok (Some (ev, nm, b)) ->
  last_test_build i = Ok (Some b)
  /\ nm = notification_name b (BuildStatus_eqb (status b) FAILED)
  /\ ev = event_type (BuildStatus_eqb (status b) FAILED).
Proof.
  unfold wanted_notification, check_state_transition.
  destruct (get_test_builds i 10) as [builds|]; simpl; [|discriminate].
  destruct (refresh_builds i builds) as [[]|]; simpl; [|discriminate].
  destruct (last_test_build i) as [[last|]|]; simpl; try discriminate.
  destruct (transition_condition builds last _) as [[|]|]; simpl; try discriminate.
  intros H. injection H as <- <- <-. auto.
Qed.

Lemma find_by_name_nil (nm : string) (ns : list Notification) :
  find_by_name nm ns = [] <-> ~ In nm (map name ns).
Proof.
  rewrite <- find_by_name_absent.
  destruct (find_by_name nm ns); simpl; split; auto; discriminate.
Qed.

Lemma adds_fresh_refl (st : State) : TasksViews.adds_fresh st st.
Proof.
  exists []. rewrite app_nil_r. repeat split; [apply NoDup_nil_2 | constructor].
Qed.

Lemma adds_fresh_same_table (st st1 st2 : State) :
  notifications st2 = notifications st1 ->
  TasksViews.adds_fresh st st1 -> TasksViews.adds_fresh st st2.
Proof. intros H (added & Hn & Hd & Hf). exists added. rewrite H. auto. Qed.

Lemma adds_fresh_trans (st st1 st2 : State) :
  TasksViews.adds_fresh st st1 -> TasksViews.adds_fresh st1 st2 ->
  TasksViews.adds_fresh st st2.
Proof.
  intros (a1 & Hn1 & Hd1 & Hf1) (a2 & Hn2 & Hd2 & Hf2).
  assert (Hout : forall n, In n a2 -> ~ In (name n) (map name (notifications st ++ a1))).
  { intros n Hn. rewrite <- Hn1. apply find_by_name_nil.
    rewrite Forall_forall in Hf2. apply Hf2, list_elem_of_In, Hn. }
  exists (a1 ++ a2)%list. rewrite Hn2, Hn1, <- app_assoc. split; [reflexivity|]. split.
  - rewrite map_app. apply NoDup_app. repeat split; auto.
    intros x Hx Hx'. apply list_elem_of_In in Hx. apply list_elem_of_In in Hx'.
    apply in_map_iff in Hx' as (n & <- & Hn).
    apply (Hout n Hn). rewrite map_app. apply in_or_app. right. exact Hx.
  - apply Forall_app. split; [exact Hf1|].
    apply Forall_forall. intros n Hn. apply list_elem_of_In in Hn.
    apply find_by_name_nil. intros Hin. apply (Hout n Hn).
    rewrite map_app. apply in_or_app. left. exact Hin.
Qed.

Lemma instance_adds_fresh (now : Z) (w : Workflow) (i : TestInstance) (st : State) :
  TasksViews.adds_fresh st (check_test_instance now w i st).1.
Proof.
  rewrite check_test_instance_unfold.
  destruct (wanted_notification i) as [[[[ev nm] b]|]|e]; try apply adds_fresh_refl.
  destruct (length (find_by_name nm (notifications st)) =? 0)%nat eqn:E;
    [|apply adds_fresh_refl].
  eexists [_]. simpl. split; [reflexivity|]. split.
  - apply NoDup_singleton.
  - constructor; [|constructor]. simpl.
    destruct (find_by_name nm (notifications st)); [reflexivity | discriminate].
Qed.

Lemma for_each_adds_fresh {A} (f : A -> task unit) (l : list A) :
  (forall x st, TasksViews.adds_fresh st (f x st).1) ->
  forall st, TasksViews.adds_fresh st (for_each l f st).1.
Proof.
  intros Hf. induction l as [|x l IH]; intros st; [apply adds_fresh_refl|].
  rewrite for_each_cons. specialize (Hf x st).
  destruct (f x st) as [st1 [[]|e]]; simpl in *; [|exact Hf].
  eapply adds_fresh_trans; [exact Hf | apply IH].
Qed.

Lemma workflow_adds_fresh (now : Z) (w : Workflow) (st : State) :
  TasksViews.adds_fresh st (check_workflow_last_build now w st).1.
Proof.
  unfold check_workflow_last_build, try_except. rewrite check_workflow_builds_unfold.
  destruct (latest_version w) as [latest|e];
    [|eapply adds_fresh_same_table; [|apply adds_fresh_refl]; reflexivity].
  pose proof (for_each_adds_fresh (check_test_instance now w)
                (concat (map test_instances (test_suites latest)))
                (instance_adds_fresh now w) st) as H.
  destruct (for_each _ (check_test_instance now w) st) as [st1 [[]|e]]; simpl in *;
    [exact H|].
  eapply adds_fresh_same_table; [|exact H]. reflexivity.
Qed.

(** C4. Notifications are created once: the name of a notification is
    the text of the build that triggered it followed by FAILED or
    RECOVERED, and a notification is added only when the table has none of
    that name; so, whatever the table a pass starts from, the notifications
    it adds have names that differ from each other and from every name the
    table had, and a second pass over the same builds adds nothing. *)
Theorem notification_dedup_idempotent (now now' : Z) (workflows : list Workflow)
    (st : State) :
  let st1 := (check_last_build now workflows st).1 in
  (exists added,
     notifications st1 = (notifications st ++ added)%list
     /\ NoDup (map name added)
     /\ Forall (fun n => find_by_name (name n) (notifications st) = []) added)
  /\ notifications (check_last_build now' workflows st1).1 = notifications st1
  /\ forall w i st0,
       let st0' := (check_test_instance now w i st0).1 in
       notifications st0' = notifications st0
       \/ exists last n,
            last_test_build i = Ok (Some last)
            /\ find_by_name (name n) (notifications st0) = []
            /\ notifications st0' = (notifications st0 ++ [n])%list
            /\ name n = build_repr last +:+ " "
                        +:+ (if BuildStatus_eqb (status last) FAILED
                             then "FAILED" else "RECOVERED")
            /\ event n = (if BuildStatus_eqb (status last) FAILED
                          then BUILD_FAILED else BUILD_RECOVERED).
Proof.
  cbv zeta.
  pose proof (last_build_pass now workflows st) as (_ & _ & _ & _ & Hagain).
  split; [|split; [apply Hagain, incl_refl|]].
  - apply (for_each_adds_fresh (check_workflow_last_build now) workflows
             (workflow_adds_fresh now) st).
  - intros w i st0. rewrite check_test_instance_unfold.
    destruct (wanted_notification i) as [[[[ev nm] b]|]|e] eqn:E; simpl; auto.
    destruct (length (find_by_name nm (notifications st0)) =? 0)%nat eqn:E0; simpl; auto.
    right. apply wanted_notification_shape in E as (Hlast & -> & ->).
    eexists b, _. split; [exact Hlast|]. split; [|split; [reflexivity|]]; simpl.
    + destruct (find_by_name _ (notifications st0)); [reflexivity | discriminate].
    + split; reflexivity.
Qed.

Lemma notification_dedup_idempotent_witness :
  names (check_last_build 100 [Scenarios.scenario_D] Scenarios.empty_state).1
  = ["<TestBuild 2> FAILED"]
  /\ notifications
       (check_last_build 200 [Scenarios.scenario_D]
          (check_last_build 100 [Scenarios.scenario_D] Scenarios.empty_state).1).1
     = notifications (check_last_build 100 [Scenarios.scenario_D] Scenarios.empty_state).1.
Proof.
  split; [reflexivity|].
  destruct (notification_dedup_idempotent 100 200 [Scenarios.scenario_D]
              Scenarios.empty_state) as (_ & H & _).
  exact H.
Defined.

(** ** Exceptions in the polling jobs *)

Lemma update_version_unfold (w : Workflow) (v : WorkflowVersion) (st : State) :
  update_version w v st =
    match transaction v with
    | Raise e => (st, Raise e)
    | Ok _ =>
        match refresh_outcome v with
        | Ok _ => mark_updated (uuid w) (version v) st
        | Raise e =>
            logger_error ("Error when updating the workflow " +:+ workflow_repr w
                          +:+ ": " +:+ str_exception e) st
        end
    end.
Proof.
  unfold update_version, refresh_outcome, bind, lift, try_finally, try_except, ret.
  destruct (transaction v) as [[]|e]; [|reflexivity].
  destruct (submitter v) as [u|]; simpl.
  - destruct (login_user v) as [[]|e1]; simpl;
      [destruct (rocrate_download v) as [[]|e2]; simpl|];
      destruct (logout_user v) as [[]|e3]; reflexivity.
  - destruct (rocrate_download v) as [[]|e2]; simpl;
      destruct (logout_user v) as [[]|e3]; reflexivity.
Qed.

Lemma update_workflow_returns (w : Workflow) (st : State) :
  (update_workflow w st).2 = Ok tt.
Proof.
  unfold update_workflow, try_except.
  destruct (for_each (versions w) (update_version w) st) as [st' [[]|e]]; reflexivity.
Qed.

Lemma check_workflow_last_build_returns (now : Z) (w : Workflow) (st : State) :
  (check_workflow_last_build now w st).2 = Ok tt.
Proof.
  unfold check_workflow_last_build, try_except.
  destruct (check_workflow_builds now w st) as [st' [[]|e]]; reflexivity.
Qed.

(** A loop whose body always returns runs to its end. *)
Lemma for_each_returns {A} (f : A -> task unit) (l : list A) :
  (forall x st, (f x st).2 = Ok tt) ->
  forall st, (for_each l f st).2 = Ok tt.
Proof.
  intros Hf. induction l as [|x l IH]; intros st; [reflexivity|].
  rewrite for_each_cons. specialize (Hf x st).
  destruct (f x st) as [st' [[]|e]]; [apply IH | discriminate].
Qed.

Lemma for_each_app_returns {A} (f : A -> task unit) (l1 l2 : list A) (st : State) :
  (forall x st0, (f x st0).2 = Ok tt) ->
  for_each (l1 ++ l2) f st = for_each l2 f (for_each l1 f st).1.
Proof.
  intros Hf. rewrite for_each_app. pose proof (for_each_returns f l1 Hf st) as H.
  destruct (for_each l1 f st) as [st' [[]|e]]; [reflexivity | discriminate].
Qed.

(** C7, as the code has it.  In the loops of [check_workflows] and
    [check_last_build] over the workflows, an exception raised while a
    workflow is processed is caught and logged by the handler of that
    workflow, and the workflows that follow are processed.  In
    [check_workflows] an exception of the login or of the download of the
    RO-Crate of one version is caught and logged for that version and the
    versions that follow are processed; an exception raised when the lock of
    a version is taken is caught and logged by the handler of the workflow
    and ends the versions of that workflow.  In [check_last_build] the
    handler is the one of the workflow: an exception raised for one test
    instance is logged and ends the scan of that workflow, after the
    instances already processed. *)
Theorem polling_isolates_workflows (now : Z) (ws1 ws2 : list Workflow) (st : State) :
  (check_workflows (ws1 ++ ws2) st).2 = Ok tt
  /\ (check_last_build now (ws1 ++ ws2) st).2 = Ok tt
  /\ check_workflows (ws1 ++ ws2) st = check_workflows ws2 (check_workflows ws1 st).1
  /\ check_last_build now (ws1 ++ ws2) st
     = check_last_build now ws2 (check_last_build now ws1 st).1
  /\ (forall w v vs st0 e,
        transaction v = Ok tt ->
        refresh_outcome v = Raise e ->
        for_each (v :: vs) (update_version w) st0
        = for_each vs (update_version w)
            (logger_error ("Error when updating the workflow " +:+ workflow_repr w
                           +:+ ": " +:+ str_exception e) st0).1)
  /\ (forall w latest l1 i l2 st0 e,
        latest_version w = Ok latest ->
        concat (map test_instances (test_suites latest)) = (l1 ++ i :: l2)%list ->
        (for_each l1 (check_test_instance now w) st0).2 = Ok tt ->
        wanted_notification i = Raise e ->
        check_workflow_last_build now w st0
        = logger_error ("Error when executing task 'check_last_build': " +:+ str_exception e)
            (for_each l1 (check_test_instance now w) st0).1)
  /\ (forall w vs1 v vs2 st0 e,
        versions w = (vs1 ++ v :: vs2)%list ->
        (for_each vs1 (update_version w) st0).2 = Ok tt ->
        transaction v = Raise e ->
        update_workflow w st0
        = logger_error ("Error when executing task 'check_workflows': " +:+ str_exception e)
            (for_each vs1 (update_version w) st0).1)
  /\ (forall w st0 e,
        latest_version w = Raise e ->
        check_workflow_last_build now w st0
        = logger_error ("Error when executing task 'check_last_build': " +:+ str_exception e)
            st0).
Proof.
  repeat apply conj.
  - apply for_each_returns, update_workflow_returns.
  - apply for_each_returns, check_workflow_last_build_returns.
  - apply for_each_app_returns, update_workflow_returns.
  - apply for_each_app_returns, check_workflow_last_build_returns.
  - intros w v vs st0 e Ht Hr. rewrite for_each_cons, update_version_unfold, Ht, Hr.
    reflexivity.
  - intros w latest l1 i l2 st0 e Hl Hc H1 Hi.
    unfold check_workflow_last_build, try_except.
    rewrite check_workflow_builds_unfold, Hl, Hc, for_each_app.
    destruct (for_each l1 (check_test_instance now w) st0) as [st1 [[]|e1]];
      simpl in *; [|discriminate].
    rewrite for_each_cons, check_test_instance_unfold, Hi. reflexivity.
  - intros w vs1 v vs2 st0 e Hv H1 Ht.
    unfold update_workflow, try_except. rewrite Hv, for_each_app.
    destruct (for_each vs1 (update_version w) st0) as [st1 [[]|e1]];
      simpl in *; [|discriminate].
    rewrite for_each_cons, update_version_unfold, Ht. reflexivity.
  - intros w st0 e Hl. unfold check_workflow_last_build, try_except.
    rewrite check_workflow_builds_unfold, Hl. reflexivity.
Qed.

Lemma polling_isolates_workflows_witness :
  wanted_notification (Scenarios.unreachable_instance "i1" "service unavailable")
  = Raise (TestingServiceException "service unavailable")
  /\ check_workflow_last_build 100 Scenarios.scenario_skip Scenarios.empty_state
     = ({| notifications := []; updated := [];
           errors := ["Error when executing task 'check_last_build': service unavailable"] |},
        Ok tt)
  /\ update_workflow Scenarios.scenario_locked Scenarios.empty_state
     = ({| notifications := []; updated := [("w6", "2.0")];
           errors := ["Error when executing task 'check_workflows': lock not acquired"] |},
        Ok tt).
Proof.
  pose proof (polling_isolates_workflows 100 [] [] Scenarios.empty_state)
    as (_ & _ & _ & _ & _ & H & Hlock & _).
  split; [reflexivity|]. split.
  - exact (H Scenarios.scenario_skip
             (Scenarios.version_with "1.0" 10
                [{| suite_repr := "suite";
                    test_instances :=
                      [Scenarios.unreachable_instance "i1" "service unavailable";
                       Scenarios.pending_instance] |}])
             [] (Scenarios.unreachable_instance "i1" "service unavailable")
             [Scenarios.pending_instance] Scenarios.empty_state
             (TestingServiceException "service unavailable")
             eq_refl eq_refl eq_refl eq_refl).
  - exact (Hlock Scenarios.scenario_locked
             [Scenarios.version_with "2.0" 20 []]
             (Scenarios.locked_version "1.1" 15) [Scenarios.version_with "1.0" 10 []]
             Scenarios.empty_state (OtherException "lock not acquired")
             eq_refl eq_refl eq_refl).
Defined.

(** C7, as the claim has it, fails: the second instance of the workflow,
    which alone gets its notification, is skipped in the pass where the
    first instance raises. *)
Lemma failing_instance_skips_pending :
  names (check_test_instance 100 Scenarios.scenario_skip Scenarios.pending_instance
           Scenarios.empty_state).1
  = ["<TestBuild 7> FAILED"]
  /\ names (check_last_build 100 [Scenarios.scenario_skip] Scenarios.empty_state).1 = []
  /\ errors (check_last_build 100 [Scenarios.scenario_skip] Scenarios.empty_state).1
     = ["Error when executing task 'check_last_build': service unavailable"].
Proof. repeat split. Qed.

(** ** The email dispatcher *)

Lemma truthy_false (e : option string) :
  truthy e = false <-> e = None \/ e = Some EmptyString.
Proof.
  destruct e as [s|]; simpl.
  - rewrite negb_false_iff, String.eqb_eq. split.
    + intros ->. right. reflexivity.
    + intros [H|H]; [discriminate | congruence].
  - split; auto.
Qed.

Lemma excluded_not_eligible (u : UserNotification) :
  excluded u <-> eligible u = false.
Proof.
  unfold excluded, eligible. rewrite !andb_false_iff, truthy_false, bool_decide_eq_false.
  tauto.
Qed.

Lemma recipients_of_eligible (n : Notification) (e : string) :
  In e (recipients_of n) <->
  exists u, In u (users n) /\ eligible u = true /\ email (user u) = Some e.
Proof.
  unfold recipients_of. rewrite <- list_elem_of_In, list_elem_of_omap. split.
  - intros (u & Hu & He). exists u. apply list_elem_of_In in Hu.
    destruct (eligible u); [auto | discriminate].
  - intros (u & Hu & Hel & He). exists u. apply list_elem_of_In in Hu.
    rewrite Hel. auto.
Qed.

Lemma eligible_has_address (u : UserNotification) :
  eligible u = true -> exists e, email (user u) = Some e.
Proof.
  unfold eligible. rewrite !andb_true_iff. intros (_ & Ht).
  destruct (email (user u)) as [e|]; [eauto | discriminate].
Qed.

Lemma email_in_eligible (n : Notification) (u : UserNotification) :
  addresses_apart n -> In u (users n) ->
  email_in u (recipients_of n) = eligible u.
Proof.
  intros Hapart Hu. unfold email_in.
  destruct (eligible u) eqn:E.
  - destruct (eligible_has_address u E) as (e & He). rewrite He.
    apply bool_decide_eq_true, list_elem_of_In, recipients_of_eligible. eauto.
  - destruct (email (user u)) as [e|] eqn:He; [|reflexivity].
    apply bool_decide_eq_false. intros Hin.
    apply list_elem_of_In, recipients_of_eligible in Hin as (u' & Hu' & Hel & He').
    apply (Hapart u' u Hu' Hu Hel E). congruence.
Qed.

(** C8, as the code has it.  In a notification where no recipient left
    out shares the address of a recipient included, a recipient already
    emailed, or with email notifications disabled, or without a configured
    address, is not in the list given to the transport and keeps the emailed
    time it had; after a successful send the emailed time is set for the
    recipients included in the send and for no other, and the notification
    is saved; after a failed send nothing changes. *)
Theorem dispatch_marks_included (send_notification : Notification -> list string -> option Z)
    (n : Notification) (count : nat) (st : State) :
  addresses_apart n ->
  (forall u, excluded u <-> eligible u = false)
  /\ (forall u e,
        In u (users n) -> excluded u -> email (user u) = Some e ->
        ~ In e (recipients_of n))
  /\ (forall sent,
        send_notification n (recipients_of n) = Some sent ->
        deliver send_notification n count st
        = ((save_row (delivered n sent) st).1, Ok (count + 1)%nat)
        /\ users (delivered n sent)
           = map (fun u => if eligible u
                           then {| user := user u; emailed := Some sent |}
                           else u) (users n)
        /\ (forall k u,
              users n !! k = Some u -> excluded u ->
              users (delivered n sent) !! k = Some u)
        /\ (In n (notifications st) ->
            In (delivered n sent) (notifications (deliver send_notification n count st).1)))
  /\ (send_notification n (recipients_of n) = None ->
      deliver send_notification n count st = (st, Ok count)).
Proof.
  intros Hapart.
  assert (Husers : forall sent,
            users (delivered n sent)
            = map (fun u => if eligible u
                            then {| user := user u; emailed := Some sent |}
                            else u) (users n)).
  { intros sent. simpl. unfold set_emailed. apply map_ext_in. intros u Hu.
    rewrite (email_in_eligible n u Hapart Hu). reflexivity. }
  split; [exact excluded_not_eligible|]. split; [|split].
  - intros u e Hu Hex He Hin. apply excluded_not_eligible in Hex.
    apply recipients_of_eligible in Hin as (u' & Hu' & Hel & He').
    apply (Hapart u' u Hu' Hu Hel Hex). congruence.
  - intros sent Hsent. unfold deliver. rewrite Hsent. repeat apply conj.
    + reflexivity.
    + apply Husers.
    + intros k u Hk Hex. rewrite Husers, list_lookup_fmap, Hk. simpl.
      apply excluded_not_eligible in Hex. rewrite Hex. reflexivity.
    + intros Hin. simpl. apply in_map_iff. exists n. split; [|exact Hin].
      rewrite Nat.eqb_refl. reflexivity.
  - intros Hnone. unfold deliver. rewrite Hnone. reflexivity.
Qed.

Lemma dispatch_marks_included_witness :
  addresses_apart (Scenarios.notification_for [Scenarios.alice; Scenarios.carol])
  /\ map users
       (notifications
          (deliver Scenarios.transport
             (Scenarios.notification_for [Scenarios.alice; Scenarios.carol]) 0
             (Scenarios.table_of
                (Scenarios.notification_for [Scenarios.alice; Scenarios.carol]))).1)
     = [[{| user := Scenarios.alice; emailed := Some 500%Z |};
         {| user := Scenarios.carol; emailed := None |}]].
Proof.
  assert (Hapart : addresses_apart
                     (Scenarios.notification_for [Scenarios.alice; Scenarios.carol])).
  { intros u u' Hu Hu' He He'. simpl in Hu, Hu'.
    destruct Hu as [<-|[<-|[]]]; destruct Hu' as [<-|[<-|[]]]; try discriminate. }
  split; [exact Hapart|].
  destruct (dispatch_marks_included Scenarios.transport
              (Scenarios.notification_for [Scenarios.alice; Scenarios.carol]) 0
              (Scenarios.table_of
                 (Scenarios.notification_for [Scenarios.alice; Scenarios.carol]))
              Hapart) as (_ & _ & Hsent & _).
  destruct (Hsent 500%Z eq_refl) as (Hrun & _).
  rewrite Hrun. reflexivity.
Defined.

(** C8, as the claim has it, fails: [bob] has email notifications
    disabled and the address of [alice]; the dispatch sets his emailed time
    with hers. *)
Lemma shared_address_marks_excluded :
  excluded {| user := Scenarios.bob; emailed := None |}
  /\ recipients_of (Scenarios.notification_for [Scenarios.alice; Scenarios.bob])
     = ["alice@example.org"]
  /\ map users
       (notifications
          (deliver Scenarios.transport
             (Scenarios.notification_for [Scenarios.alice; Scenarios.bob]) 0
             (Scenarios.table_of
                (Scenarios.notification_for [Scenarios.alice; Scenarios.bob]))).1)
     = [[{| user := Scenarios.alice; emailed := Some 500%Z |};
         {| user := Scenarios.bob; emailed := Some 500%Z |}]].
Proof.
  split; [right; left; reflexivity|]. split; reflexivity.
Qed.

(** ** The purge of notifications *)

Lemma older_than_threshold (current_time : Z) (ns : list Notification) :
  older_than (current_time - retention) ns
  = filter (fun n => (created n < current_time)%Z) ns.
Proof.
  unfold older_than, retention, timedelta_days.
  replace (current_time - 0 * 86400 * 1000000)%Z with current_time by lia.
  reflexivity.
Qed.

(** C6.  The threshold of [cleanup_notifications] is the time of the run
    itself: the period subtracted from it is zero, and a notification of
    any positive age, be it one microsecond, is deleted. *)
Theorem cleanup_has_no_retention (current_time : Z) (age : positive) :
  retention = 0%Z
  /\ older_than (current_time - retention)
       [Scenarios.notification_at (current_time - Z.pos age)]
     = [Scenarios.notification_at (current_time - Z.pos age)]
  /\ cleanup_notifications Scenarios.delete_succeeds current_time
       (Scenarios.table_of (Scenarios.notification_at (current_time - Z.pos age)))
     = (Scenarios.empty_state, Ok 1%nat).
Proof.
  assert (Hold : older_than (current_time - retention)
                   [Scenarios.notification_at (current_time - Z.pos age)]
                 = [Scenarios.notification_at (current_time - Z.pos age)]).
  { rewrite older_than_threshold, filter_cons. simpl.
    destruct (decide _) as [_|Hn]; [reflexivity | exfalso; apply Hn; lia]. }
  split; [reflexivity|]. split; [exact Hold|].
  unfold cleanup_notifications, bind at 1, get_notifications. simpl notifications.
  rewrite Hold. reflexivity.
Qed.

(** ** Detection inside the job *)

(** The condition for any latest build, be it [builds[0]] or not. *)
Lemma transition_for_any_latest_build (last_build b0 b1 : TestBuild) (rest : list TestBuild) :
  check_state_transition (b0 :: b1 :: rest) last_build =
    Ok (if decisive (status b0) && decisive (status b1)
           && negb (BuildStatus_eqb (status b1) (status last_build))
        then Some (event_type (BuildStatus_eqb (status last_build) FAILED))
        else None).
Proof.
  unfold check_state_transition, transition_condition, index; simpl.
  destruct (decisive (status b0)), (decisive (status b1)); simpl; try reflexivity;
    destruct (BuildStatus_eqb (status b1) (status last_build)); reflexivity.
Qed.

Lemma refresh_builds_found (nm : string) (builds l : list TestBuild) :
  incl l builds ->
  refresh_builds (Scenarios.instance_with_builds nm builds) l = Ok tt.
Proof.
  unfold refresh_builds. induction l as [|b l IH]; intros Hincl; [reflexivity|].
  simpl. destruct (find _ builds) as [b'|] eqn:E; simpl.
  - apply IH. intros x Hx. apply Hincl. right. exact Hx.
  - apply find_none with (x := b) in E; [|apply Hincl; left; reflexivity].
    rewrite String.eqb_refl in E. discriminate.
Qed.

Lemma take_incl {A} (n : nat) (l : list A) : incl (take n l) l.
Proof.
  revert n. induction l as [|x l IH]; intros [|n]; simpl; try apply incl_nil_l.
  intros y [<-|Hy]; [left; reflexivity | right; apply (IH n), Hy].
Qed.

(** An instance with two builds or more, whose latest build is the first
    of them: what the job wants to notify. *)
Lemma wanted_of_two_builds (nm : string) (last prev : TestBuild) (rest : list TestBuild) :
  wanted_notification (Scenarios.instance_with_builds nm (last :: prev :: rest)) =
    Ok (match status last, status prev with
        | FAILED, PASSED => Some (BUILD_FAILED, build_repr last +:+ " FAILED", last)
        | PASSED, FAILED => Some (BUILD_RECOVERED, build_repr last +:+ " RECOVERED", last)
        | _, _ => None
        end).
Proof.
  unfold wanted_notification.
  change (get_test_builds (Scenarios.instance_with_builds nm (last :: prev :: rest)) 10)
    with (Ok (last :: prev :: take 8 rest) : result (list TestBuild)).
  cbn [rbind].
  rewrite refresh_builds_found.
  - cbn [rbind Scenarios.instance_with_builds last_test_build head].
    rewrite transition_for_any_latest_build. unfold notification_name, decisive, event_type.
    destruct (status last), (status prev); reflexivity.
  - intros x [<-|[<-|Hx]]; [left; reflexivity | right; left; reflexivity |].
    right. right. apply (take_incl 8 rest), Hx.
Qed.

(** A workflow whose only instance has a single, passed build: the pass
    logs the [IndexError], and the instance that follows is not reached. *)
Lemma single_passed_build_aborts_scan :
  check_last_build 100
    [Scenarios.workflow_with "w3"
       [Scenarios.instance_with_builds "i1" [Scenarios.build "1" PASSED];
        Scenarios.pending_instance]]
    Scenarios.empty_state
  = ({| notifications := []; updated := [];
        errors := ["Error when executing task 'check_last_build': list index out of range"] |},
     Ok tt).
Proof. reflexivity. Qed.

End TasksProofs.

(** * Further properties of status.py *)

Module StatusExtras.
Import Status StatusObjects StatusProofs.

(** ** The fold from any status *)

Lemma fold_from_status (s : AggregateTestStatus) (l : list bool) :
  fold_left _update_status l s =
    match s with
    | NOT_AVAILABLE => expected_status l
    | ALL_PASSING => if forallb (fun b => b) l then ALL_PASSING else SOME_PASSING
    | ALL_FAILING => if forallb negb l then ALL_FAILING else SOME_PASSING
    | SOME_PASSING => SOME_PASSING
    end.
Proof.
  destruct s.
  - apply fold_all_passing.
  - apply fold_some_passing.
  - apply fold_all_failing.
  - apply (aggregate_expected l).
Qed.

Lemma expected_status_not_available (l : list bool) :
  expected_status l = NOT_AVAILABLE <-> l = [].
Proof.
  destruct l as [|b l]; simpl; [tauto|].
  split; [|discriminate].
  destruct b; simpl; [destruct (forallb _ l) | destruct (forallb negb l)]; discriminate.
Qed.

(** X1.  Folding outcomes into a running status, whatever the status the fold
    starts from: the result does not depend on the order of the outcomes, it
    is [NOT_AVAILABLE] only when the fold starts there and folds nothing, and
    it stays [SOME_PASSING] once there. *)
Theorem fold_status_any_start (s : AggregateTestStatus) (l l' : list bool) :
  Permutation l l' ->
  fold_left _update_status l' s = fold_left _update_status l s
  /\ (fold_left _update_status l s = NOT_AVAILABLE <-> s = NOT_AVAILABLE /\ l = [])
  /\ (s = SOME_PASSING -> fold_left _update_status l s = SOME_PASSING).
Proof.
  intros HP. rewrite !fold_from_status. split; [|split].
  - destruct s; try reflexivity.
    + rewrite (forallb_permutation _ _ _ HP). reflexivity.
    + rewrite (forallb_permutation _ _ _ HP). reflexivity.
    + symmetry. apply expected_status_permutation, HP.
  - destruct s.
    + destruct (forallb _ l); split; try discriminate; intros [H _]; discriminate.
    + split; try discriminate; intros [H _]; discriminate.
    + destruct (forallb negb l); split; try discriminate; intros [H _]; discriminate.
    + rewrite expected_status_not_available. tauto.
  - intros ->. reflexivity.
Qed.

Lemma fold_status_any_start_witness :
  Permutation [true; false] [false; true]
  /\ fold_left _update_status [false; true] ALL_PASSING
     = fold_left _update_status [true; false] ALL_PASSING.
Proof.
  split; [apply perm_swap|].
  destruct (fold_status_any_start ALL_PASSING [true; false] [false; true]
              (perm_swap false true [])) as [H _].
  exact H.
Defined.

(** ** Scans without instances *)

Lemma no_instances_behave (suites : list TestSuite) :
  Forall (fun s => test_instances s = []) suites ->
  all_instances suites = [].
Proof.
  unfold all_instances. induction 1 as [|s suites Hs _ IH]; simpl; [reflexivity|].
  rewrite Hs, IH. reflexivity.
Qed.

Lemma no_instances_issues (suites : list TestSuite) :
  Forall (fun s => test_instances s = []) suites ->
  concat (map suite_issues suites) = map no_instances_issue suites.
Proof.
  induction 1 as [|s suites Hs _ IH]; simpl; [reflexivity|].
  rewrite IH. unfold suite_issues. rewrite Hs. reflexivity.
Qed.

(** X2.  When no suite has a test instance (in particular without suites),
    [check_status] returns [NOT_AVAILABLE] with no build, and one issue for
    each suite, or the issue of the missing suites when there is none. *)
Theorem check_status_without_instances (suites : list TestSuite) :
  Forall (fun s => test_instances s = []) suites ->
  check_status suites =
    Ok {| acc_status := NOT_AVAILABLE;
          latest_builds := [];
          availability_issues :=
            match suites with
            | [] => [[("issue", VStr "No test suite configured for this workflow")]]
            | _ :: _ => map no_instances_issue suites
            end |}.
Proof.
  intros H. pose proof (no_instances_behave suites H) as Hall.
  rewrite check_status_behaves; [|rewrite Hall; constructor].
  unfold fetched_builds, scan_issues. rewrite Hall, (no_instances_issues suites H).
  destruct suites; reflexivity.
Qed.

Lemma check_status_without_instances_witness :
  Forall (fun s => test_instances s = []) []
  /\ check_status [] =
       Ok {| acc_status := NOT_AVAILABLE;
             latest_builds := [];
             availability_issues :=
               [[("issue", VStr "No test suite configured for this workflow")]] |}.
Proof.
  split; [constructor|].
  apply (check_status_without_instances []). constructor.
Defined.

(** ** Exceptions the scan does not catch *)

Lemma first_fault_none (l : list TestInstance) :
  first_fault l = None <-> Forall gateway_behaves l.
Proof.
  induction l as [|i l IH]; simpl.
  - split; [constructor | reflexivity].
  - rewrite Forall_cons. unfold gateway_behaves at 1.
    destruct (last_test_build i) as [o|[]]; try tauto;
      (split; [discriminate | intros [[] _]]).
Qed.

Lemma first_fault_not_service (l : list TestInstance) (e : Exception) :
  first_fault l = Some e -> forall msg, e <> TestingServiceException msg.
Proof.
  induction l as [|i l IH]; simpl; [discriminate|].
  destruct (last_test_build i) as [o|[]]; auto; intros H; injection H as <-; discriminate.
Qed.

Lemma first_fault_app (l1 l2 : list TestInstance) :
  first_fault (l1 ++ l2) =
    match first_fault l1 with
    | Some e => Some e
    | None => first_fault l2
    end.
Proof.
  induction l1 as [|i l1 IH]; simpl; [reflexivity|].
  destruct (last_test_build i) as [o|[]]; auto.
Qed.

Lemma check_instances_fault (l : list TestInstance) (e : Exception) (a : Acc) :
  first_fault l = Some e -> foldM check_instance l a = Raise e.
Proof.
  revert a. induction l as [|i l IH]; simpl; [discriminate|]. intros a.
  unfold check_instance.
  destruct (last_test_build i) as [[b|]|[]]; simpl; intros H;
    try (apply IH, H); injection H as <-; reflexivity.
Qed.

Lemma check_suites_fault (suites : list TestSuite) (e : Exception) (a : Acc) :
  first_fault (all_instances suites) = Some e -> foldM check_suite suites a = Raise e.
Proof.
  unfold all_instances. revert a.
  induction suites as [|s suites IH]; simpl; [discriminate|]. intros a.
  rewrite first_fault_app.
  destruct (first_fault (test_instances s)) as [e'|] eqn:E.
  - intros H. injection H as ->. unfold check_suite.
    rewrite (check_instances_fault _ e _ E). reflexivity.
  - intros H. apply first_fault_none in E.
    rewrite (check_suite_behaves s a E). simpl. apply IH, H.
Qed.

(** X3.  [check_status] raises exactly when the gateway of some instance raises
    an exception other than [TestingServiceException]: it then raises the
    exception of the first such instance of the scan; otherwise it returns. *)
Theorem check_status_first_fault (suites : list TestSuite) :
  match first_fault (all_instances suites) with
  | Some e =>
      check_status suites = Raise e
      /\ forall msg, e <> TestingServiceException msg
  | None =>
      exists a, check_status suites = Ok a
  end.
Proof.
  destruct (first_fault (all_instances suites)) as [e|] eqn:E.
  - split; [|exact (first_fault_not_service _ _ E)].
    unfold check_status. apply check_suites_fault, E.
  - apply first_fault_none in E. eexists. apply check_status_behaves, E.
Qed.

Lemma returns_behaves (suites : list TestSuite) (a : Acc) :
  check_status suites = Ok a -> Forall gateway_behaves (all_instances suites).
Proof.
  intros H. apply first_fault_none.
  pose proof (check_status_first_fault suites) as Hf.
  destruct (first_fault (all_instances suites)) as [e|]; [|reflexivity].
  destruct Hf as [Hf _]. congruence.
Qed.

(** ** The status and the builds *)

Lemma forallb_of_map {A B} (f : A -> B) (p : B -> bool) (l : list A) :
  forallb p (map f l) = forallb (fun x => p (f x)) l.
Proof. induction l as [|x l IH]; simpl; [reflexivity | now rewrite IH]. Qed.

(** X4.  When [check_status] returns, its builds are the latest builds of the
    instances that have one, in the order of the scan, and its status reads
    them: [NOT_AVAILABLE] exactly without builds, [ALL_PASSING] exactly when
    there are builds and all are successful, [ALL_FAILING] exactly when
    there are builds and none is successful. *)
Theorem status_reads_builds (suites : list TestSuite) (a : Acc) :
  check_status suites = Ok a ->
  latest_builds a = fetched_builds suites
  /\ (acc_status a = NOT_AVAILABLE <-> latest_builds a = [])
  /\ (acc_status a = ALL_PASSING <->
      latest_builds a <> [] /\ forallb is_successful (latest_builds a) = true)
  /\ (acc_status a = ALL_FAILING <->
      latest_builds a <> []
      /\ forallb (fun b => negb (is_successful b)) (latest_builds a) = true).
Proof.
  intros H. pose proof (returns_behaves _ _ H) as Hb.
  rewrite (check_status_behaves _ Hb) in H. injection H as <-. simpl.
  split; [reflexivity|]. rewrite aggregate_expected.
  generalize (fetched_builds suites). intros bs.
  destruct bs as [|b bs]; simpl.
  - repeat split; try discriminate; try tauto; intros [Hn _]; contradiction.
  - rewrite !forallb_of_map.
    destruct (is_successful b); simpl.
    + destruct (forallb (fun x => is_successful x) bs); simpl;
        repeat split; try discriminate; try tauto; intros [_ Hf]; discriminate.
    + destruct (forallb (fun x => negb (is_successful x)) bs); simpl;
        repeat split; try discriminate; try tauto; intros [_ Hf]; discriminate.
Qed.

Lemma status_reads_builds_witness :
  check_status Scenarios.scenario_F =
    Ok {| acc_status := SOME_PASSING;
          latest_builds := [Scenarios.build "11" PASSED; Scenarios.build "31" FAILED];
          availability_issues :=
            [service_issue (Scenarios.unreachable_instance "i2" "service unavailable")
                           "service unavailable"] |}
  /\ fetched_builds Scenarios.scenario_F
     = [Scenarios.build "11" PASSED; Scenarios.build "31" FAILED].
Proof.
  split; [reflexivity|].
  destruct (status_reads_builds Scenarios.scenario_F _ eq_refl) as [H _].
  symmetry. exact H.
Defined.

(** ** The status of a workflow and the statuses of its suites *)

Lemma suite_status_returns (s : TestSuite) (a : Acc) :
  SuiteStatus s = Ok a ->
  Forall gateway_behaves (test_instances s)
  /\ latest_builds a = omap fetched_build (test_instances s)
  /\ availability_issues a = suite_issues s.
Proof.
  unfold SuiteStatus. intros H. pose proof (returns_behaves _ _ H) as Hb.
  rewrite (check_status_behaves _ Hb) in H. injection H as <-. simpl.
  assert (Hall : all_instances [s] = test_instances s).
  { unfold all_instances. simpl. apply app_nil_r. }
  unfold fetched_builds, scan_issues. rewrite Hall in *. simpl.
  rewrite app_nil_r. auto.
Qed.

(** X5.  The status of a version with at least one suite, from the statuses of
    its suites: when each suite has a status, the version has one; its builds
    and its issues are those of the suites, put end to end, and its status is
    the fold of all these builds. *)
Theorem workflow_status_of_suites (workflow : Tasks.WorkflowVersion) (accs : list Acc) :
  Tasks.test_suites workflow <> [] ->
  Forall2 (fun s a => SuiteStatus s = Ok a) (Tasks.test_suites workflow) accs ->
  WorkflowStatus workflow =
    Ok {| acc_status := aggregate (map is_successful (concat (map latest_builds accs)));
          latest_builds := concat (map latest_builds accs);
          availability_issues := concat (map availability_issues accs) |}.
Proof.
  unfold WorkflowStatus. generalize (Tasks.test_suites workflow). intros suites Hne H2.
  assert (Hall : Forall gateway_behaves (all_instances suites)
                 /\ concat (map latest_builds accs) = fetched_builds suites
                 /\ concat (map availability_issues accs) = concat (map suite_issues suites)).
  { clear Hne. unfold all_instances, fetched_builds.
    induction H2 as [|s a suites accs Hs _ IH]; simpl.
    - repeat split. constructor.
    - destruct IH as (IH1 & IH2 & IH3).
      apply suite_status_returns in Hs as (Hb & Hl & Hi).
      change (all_instances (s :: suites))
        with (test_instances s ++ all_instances suites)%list.
      rewrite omap_app, IH2, IH3, Hl, Hi. repeat split. apply Forall_app. auto. }
  destruct Hall as (Hb & -> & ->).
  rewrite (check_status_behaves _ Hb). unfold scan_issues.
  destruct suites; [contradiction | reflexivity].
Qed.

Lemma workflow_status_of_suites_witness :
  Tasks.test_suites (Scenarios.version_with "1.0" 10 Scenarios.scenario_F) <> []
  /\ WorkflowStatus (Scenarios.version_with "1.0" 10 Scenarios.scenario_F)
     = Ok {| acc_status := SOME_PASSING;
             latest_builds := [Scenarios.build "11" PASSED; Scenarios.build "31" FAILED];
             availability_issues :=
               [service_issue (Scenarios.unreachable_instance "i2" "service unavailable")
                              "service unavailable"] |}.
Proof.
  assert (Hne : Tasks.test_suites (Scenarios.version_with "1.0" 10 Scenarios.scenario_F) <> [])
    by discriminate.
  split; [exact Hne|].
  apply (workflow_status_of_suites
           (Scenarios.version_with "1.0" 10 Scenarios.scenario_F)
           [{| acc_status := SOME_PASSING;
               latest_builds := [Scenarios.build "11" PASSED; Scenarios.build "31" FAILED];
               availability_issues :=
                 [service_issue (Scenarios.unreachable_instance "i2" "service unavailable")
                                "service unavailable"] |}] Hne).
  repeat constructor.
Defined.

(** ** The health check *)

Lemma foldM_append {A S} (f : A -> S -> result S) (l1 l2 : list A) (s : S) :
  foldM f (l1 ++ l2) s = rbind (foldM f l1 s) (foldM f l2).
Proof.
  revert s. induction l1 as [|x l1 IH]; intros s; simpl; [reflexivity|].
  destruct (f x s) as [s'|e]; simpl; [apply IH | reflexivity].
Qed.

Lemma foldM_nested {A B S} (g : A -> list B) (f : B -> S -> result S) (l : list A) (s : S) :
  foldM (fun x s' => foldM f (g x) s') l s = foldM f (concat (map g l)) s.
Proof.
  revert s. induction l as [|x l IH]; intros s; simpl; [reflexivity|].
  rewrite foldM_append. destruct (foldM f (g x) s) as [s'|e]; simpl; [apply IH | reflexivity].
Qed.

Lemma last_cons_default {A} (d x : A) (l : list A) :
  default d (last (x :: l)) = default x (last l).
Proof.
  revert d x. induction l as [|y l IH]; intros d x; [reflexivity|].
  change (last (x :: y :: l)) with (last (y :: l)).
  rewrite (IH d y), (IH x y). reflexivity.
Qed.

Lemma instances_health (l : list TestInstance) (h : Health) :
  Forall health_readable l ->
  foldM check_instance_health l h =
    Ok {| healthy := default (healthy h) (last (omap verdict l));
          issues := (issues h ++ omap service_error l)%list |}.
Proof.
  intros H. revert h. induction H as [|i l Hi _ IH]; intros h; simpl.
  - rewrite app_nil_r. destruct h; reflexivity.
  - unfold health_readable in Hi. unfold check_instance_health, verdict, service_error.
    destruct (last_test_build i) as [[b|]|[]]; try contradiction; simpl.
    + destruct (is_successful b); simpl; rewrite IH; simpl; [reflexivity|].
      rewrite last_cons_default. reflexivity.
    + rewrite IH. simpl. rewrite last_cons_default, <- app_assoc. reflexivity.
Qed.

Lemma verdict_not_true (i : TestInstance) : verdict i <> Some Healthy_True.
Proof.
  unfold verdict. destruct (last_test_build i) as [[b|]|[]]; try discriminate.
  destruct (is_successful b); discriminate.
Qed.

Lemma healthy_true_no_verdict (l : list TestInstance) :
  default Healthy_True (last (omap verdict l)) = Healthy_True <-> omap verdict l = [].
Proof.
  split; [|intros ->; reflexivity].
  destruct (last (omap verdict l)) as [v|] eqn:El; simpl.
  - intros ->. exfalso. apply last_Some in El as (l' & El).
    assert (Hin : Healthy_True ∈ omap verdict l).
    { rewrite El. apply list_elem_of_In, in_or_app. right. left. reflexivity. }
    apply list_elem_of_omap in Hin as (j & _ & Hj). exact (verdict_not_true j Hj).
  - intros _. apply last_None in El. exact El.
Qed.

Lemma no_verdict_all_pass (l : list TestInstance) :
  Forall health_readable l ->
  omap verdict l = [] <->
  Forall (fun i => exists b, last_test_build i = Ok (Some b) /\ is_successful b = true) l.
Proof.
  induction 1 as [|i l Hi _ IH]; simpl.
  - split; [constructor | reflexivity].
  - rewrite Forall_cons, <- IH. unfold health_readable in Hi. unfold verdict at 1.
    destruct (last_test_build i) as [[b|]|[]]; try contradiction.
    + destruct (is_successful b) eqn:Eb; split.
      * intros Hl. split; [exists b; auto | exact Hl].
      * intros [_ Hl]. exact Hl.
      * discriminate.
      * intros [(b' & Hb' & Hs) _]. injection Hb' as <-. congruence.
    + split; [discriminate | intros [(b' & Hb' & _) _]; discriminate].
Qed.

(** X6.  When every instance has a latest build or a service error,
    [check_health] returns: the issues are the texts of the service errors, in
    the order of the scan, and [healthy] is what the last instance that does
    not pass says, [False] for a failed build and ["Unknown"] for a service
    error; it is [True] exactly when every instance has a successful
    build. *)
Theorem check_health_reads (suites : list TestSuite) :
  Forall health_readable (all_instances suites) ->
  check_health suites =
    Ok {| healthy := default Healthy_True (last (omap verdict (all_instances suites)));
          issues := omap service_error (all_instances suites) |}
  /\ (is_healthy suites = Ok Healthy_True <->
      Forall (fun i => exists b, last_test_build i = Ok (Some b) /\ is_successful b = true)
             (all_instances suites)).
Proof.
  intros H.
  assert (Hrun : check_health suites =
            Ok {| healthy := default Healthy_True (last (omap verdict (all_instances suites)));
                  issues := omap service_error (all_instances suites) |}).
  { unfold check_health, all_instances in *.
    rewrite foldM_nested, (instances_health _ _ H). reflexivity. }
  split; [exact Hrun|]. unfold is_healthy. rewrite Hrun. simpl.
  rewrite <- (no_verdict_all_pass _ H), <- healthy_true_no_verdict.
  split; [intros Heq; injection Heq as ->; reflexivity | intros ->; reflexivity].
Qed.

Lemma check_health_reads_witness :
  Forall health_readable (all_instances Scenarios.scenario_F)
  /\ check_health Scenarios.scenario_F
     = Ok {| healthy := Healthy_False; issues := ["service unavailable"] |}.
Proof.
  assert (H : Forall health_readable (all_instances Scenarios.scenario_F)).
  { repeat constructor. }
  split; [exact H|].
  destruct (check_health_reads Scenarios.scenario_F H) as [Hrun _].
  rewrite Hrun. reflexivity.
Defined.

(** X7.  The health of a version depends on the order of its instances, where
    its status does not: with an instance whose latest build failed and an
    instance whose service is down, [is_healthy] is ["Unknown"] when the
    second comes last and [False] when the first comes last, while
    [check_status] gives the same status to both orders. *)
Theorem check_health_depends_on_order (nm : string) (i_failed i_down : TestInstance)
    (b : TestBuild) (msg : string) :
  last_test_build i_failed = Ok (Some b) ->
  is_successful b = false ->
  last_test_build i_down = Raise (TestingServiceException msg) ->
  let suite l := {| suite_repr := nm; test_instances := l |} in
  is_healthy [suite [i_failed; i_down]] = Ok Healthy_Unknown
  /\ is_healthy [suite [i_down; i_failed]] = Ok Healthy_False
  /\ rbind (check_status [suite [i_failed; i_down]]) (fun a => Ok (acc_status a))
     = Ok ALL_FAILING
  /\ rbind (check_status [suite [i_down; i_failed]]) (fun a => Ok (acc_status a))
     = Ok ALL_FAILING.
Proof.
  intros Hf Hb Hd. cbv zeta.
  unfold is_healthy, check_health, check_instance_health, check_status, check_suite,
    check_instance; simpl.
  rewrite Hf, Hd; simpl. rewrite Hb; simpl. rewrite ?Hf, ?Hd; simpl. rewrite ?Hb.
  repeat split.
Qed.

Lemma check_health_depends_on_order_witness :
  is_healthy
    [{| suite_repr := "suite";
        test_instances :=
          [Scenarios.instance_with_builds "i3" [Scenarios.build "31" FAILED];
           Scenarios.unreachable_instance "i2" "service unavailable"] |}]
  = Ok Healthy_Unknown
  /\ is_healthy
       [{| suite_repr := "suite";
           test_instances :=
             [Scenarios.unreachable_instance "i2" "service unavailable";
              Scenarios.instance_with_builds "i3" [Scenarios.build "31" FAILED]] |}]
     = Ok Healthy_False.
Proof.
  destruct (check_health_depends_on_order "suite"
              (Scenarios.instance_with_builds "i3" [Scenarios.build "31" FAILED])
              (Scenarios.unreachable_instance "i2" "service unavailable")
              (Scenarios.build "31" FAILED) "service unavailable"
              eq_refl eq_refl eq_refl) as (H1 & H2 & _).
  split; [exact H1 | exact H2].
Defined.

Lemma instances_health_raise (l1 l2 : list TestInstance) (i : TestInstance)
    (e : Exception) (h : Health) :
  Forall health_readable l1 ->
  check_instance_health i
    {| healthy := default (healthy h) (last (omap verdict l1));
       issues := (issues h ++ omap service_error l1)%list |} = Raise e ->
  foldM check_instance_health (l1 ++ i :: l2) h = Raise e.
Proof.
  intros H1 Hi. rewrite foldM_append, (instances_health _ _ H1). simpl.
  rewrite Hi. reflexivity.
Qed.

(** X8.  An instance without any build makes [check_health] raise
    [AttributeError], when the instances scanned before it have a build or a
    service error; [check_status] records the issue "No build found" for the
    same instance and goes on. *)
Theorem check_health_without_build (suites : list TestSuite)
    (l1 l2 : list TestInstance) (i : TestInstance) :
  all_instances suites = (l1 ++ i :: l2)%list ->
  Forall health_readable l1 ->
  last_test_build i = Ok None ->
  check_health suites = Raise AttributeError
  /\ is_healthy suites = Raise AttributeError
  /\ forall a, check_instance i a = Ok (append_issue (no_build_issue i) a).
Proof.
  intros Hall H1 Hi.
  assert (Hrun : check_health suites = Raise AttributeError).
  { unfold check_health. rewrite foldM_nested. fold (all_instances suites). rewrite Hall.
    apply instances_health_raise; [exact H1|].
    unfold check_instance_health. rewrite Hi. reflexivity. }
  split; [exact Hrun|]. split.
  - unfold is_healthy. rewrite Hrun. reflexivity.
  - intros a. unfold check_instance. rewrite Hi. reflexivity.
Qed.

Lemma check_health_without_build_witness :
  check_health
    [{| suite_repr := "suite";
        test_instances := [Scenarios.instance_with_builds "i0" []] |}]
  = Raise AttributeError.
Proof.
  destruct (check_health_without_build
              [{| suite_repr := "suite";
                  test_instances := [Scenarios.instance_with_builds "i0" []] |}]
              [] [] (Scenarios.instance_with_builds "i0" [])
              eq_refl (Forall_nil_2 _) eq_refl) as [H _].
  exact H.
Defined.

End StatusExtras.

(** * Properties of workflows.py *)

Module WorkflowsProofs.
Import Tasks Workflows.

(** ** The latest version *)

Lemma max_created_spec (best : WorkflowVersion) (vs : list WorkflowVersion) :
  In (max_created best vs) (best :: vs)
  /\ (version_created best <= version_created (max_created best vs))%Z
  /\ Forall (fun v => (version_created v <= version_created (max_created best vs))%Z) vs.
Proof.
  revert best. induction vs as [|v vs IH]; intros best; simpl.
  - repeat split; [left; reflexivity | lia | constructor].
  - destruct (IH (if (version_created best <? version_created v)%Z then v else best))
      as (Hin & Hle & Hall).
    destruct (Z.ltb_spec (version_created best) (version_created v)) as [Hlt|Hge].
    + repeat split.
      * destruct Hin as [<-|Hin]; [right; left; reflexivity | right; right; exact Hin].
      * lia.
      * constructor; [exact Hle | exact Hall].
    + repeat split.
      * destruct Hin as [<-|Hin]; [left; reflexivity | right; right; exact Hin].
      * exact Hle.
      * constructor; [lia | exact Hall].
Qed.

(** X9.  [latest_version] raises [ValueError] exactly for a workflow without
    versions; otherwise it returns one of the versions of the workflow, and
    no version was created after it. *)
Theorem latest_version_greatest (w : Workflow) :
  match latest_version w with
  | Ok latest =>
      In latest (versions w)
      /\ Forall (fun v => (version_created v <= version_created latest)%Z) (versions w)
  | Raise e => e = ValueError /\ versions w = []
  end.
Proof.
  unfold latest_version. destruct (versions w) as [|v vs]; [split; reflexivity|].
  destruct (max_created_spec v vs) as (Hin & Hle & Hall).
  split; [exact Hin | constructor; assumption].
Qed.

Lemma max_created_first (best : WorkflowVersion) (vs : list WorkflowVersion) :
  Forall (fun v => (version_created v <= version_created best)%Z) vs ->
  max_created best vs = best.
Proof.
  induction 1 as [|v vs Hv _ IH]; simpl; [reflexivity|].
  destruct (Z.ltb_spec (version_created best) (version_created v)); [lia | exact IH].
Qed.

(** X10.  When no version was created after the first one of the collection
    (the relationship orders the versions by creation time, newest first),
    [latest_version] is that first version, also when others were created at
    the same time. *)
Theorem latest_version_first (w : Workflow) (v : WorkflowVersion)
    (vs : list WorkflowVersion) :
  versions w = v :: vs ->
  Forall (fun v' => (version_created v' <= version_created v)%Z) vs ->
  latest_version w = Ok v.
Proof.
  intros Hv Hall. unfold latest_version. rewrite Hv, (max_created_first v vs Hall).
  reflexivity.
Qed.

Lemma latest_version_first_witness :
  latest_version Scenarios.scenario_versions = Ok (Scenarios.version_with "2.0" 20 []).
Proof.
  apply (latest_version_first Scenarios.scenario_versions _ _ eq_refl).
  repeat constructor; simpl; lia.
Defined.

(** ** The versions next to a version *)

Lemma index_of_absent (self : WorkflowVersion) (l : list WorkflowVersion) :
  ~ In (version self) (map version l) -> index_of self l = None.
Proof.
  induction l as [|v l IH]; simpl; [reflexivity|]. intros H.
  destruct (String.eqb_spec (version v) (version self)) as [E|E].
  - exfalso. apply H. left. exact E.
  - rewrite IH; [reflexivity|]. intros Hin. apply H. right. exact Hin.
Qed.

Lemma index_of_found (v : WorkflowVersion) (l1 l2 : list WorkflowVersion) :
  ~ In (version v) (map version l1) ->
  index_of v (l1 ++ v :: l2) = Some (length l1).
Proof.
  induction l1 as [|x l1 IH]; simpl; intros H.
  - rewrite String.eqb_refl. reflexivity.
  - destruct (String.eqb_spec (version x) (version v)) as [E|E].
    + exfalso. apply H. left. exact E.
    + rewrite IH; [reflexivity|]. intros Hin. apply H. right. exact Hin.
Qed.

Lemma key_before (v : WorkflowVersion) (l1 l2 : list WorkflowVersion) :
  NoDup (map version (l1 ++ v :: l2)) -> ~ In (version v) (map version l1).
Proof.
  rewrite map_app. simpl. intros Hnd Hin.
  apply NoDup_app in Hnd as (_ & Hdisj & _).
  apply (Hdisj (version v)); [apply list_elem_of_In, Hin | left].
Qed.

(** X11.  In a workflow whose versions have distinct keys, two versions that
    follow each other in the collection are each other's neighbours: the
    second is the [previous_version] of the first and the first is the
    [next_version] of the second. *)
Theorem relative_versions_adjacent (w : Workflow) (l1 l2 : list WorkflowVersion)
    (v p : WorkflowVersion) :
  distinct_keys w ->
  versions w = (l1 ++ v :: p :: l2)%list ->
  previous_version w v = Ok (Some p)
  /\ next_version w p = Ok (Some v).
Proof.
  unfold distinct_keys, previous_version, next_version, _get_relative_version.
  intros Hnd Hv. rewrite Hv in *. split.
  - rewrite (index_of_found v l1 (p :: l2) (key_before _ _ _ Hnd)).
    rewrite length_app. simpl length.
    replace (Z.of_nat (length l1) + 1)%Z with (Z.of_nat (length l1 + 1)) by lia.
    rewrite Nat2Z.id.
    destruct (Z.leb_spec 0 (Z.of_nat (length l1 + 1))); [|lia].
    destruct (Z.ltb_spec (Z.of_nat (length l1 + 1))
                (Z.of_nat (length l1 + S (S (length l2))))); [|lia].
    simpl. f_equal. rewrite lookup_app_r by lia.
    replace (length l1 + 1 - length l1)%nat with 1%nat by lia. reflexivity.
  - assert (Hv' : (l1 ++ v :: p :: l2 = (l1 ++ [v]) ++ p :: l2)%list)
      by (rewrite <- app_assoc; reflexivity).
    rewrite Hv' in Hnd |- *.
    rewrite (index_of_found p (l1 ++ [v]) l2 (key_before _ _ _ Hnd)).
    rewrite !length_app. simpl length.
    replace (Z.of_nat (length l1 + 1) + -1)%Z with (Z.of_nat (length l1)) by lia.
    rewrite Nat2Z.id.
    destruct (Z.leb_spec 0 (Z.of_nat (length l1))); [|lia].
    destruct (Z.ltb_spec (Z.of_nat (length l1))
                (Z.of_nat (length l1 + 1 + S (length l2)))); [|lia].
    simpl. f_equal. rewrite <- app_assoc. rewrite lookup_app_r by lia.
    replace (length l1 - length l1)%nat with 0%nat by lia. reflexivity.
Qed.

Lemma relative_versions_adjacent_witness :
  distinct_keys Scenarios.scenario_versions
  /\ previous_version Scenarios.scenario_versions (Scenarios.version_with "1.1" 20 [])
     = Ok (Some (Scenarios.version_with "1.0" 10 []))
  /\ next_version Scenarios.scenario_versions (Scenarios.version_with "1.0" 10 [])
     = Ok (Some (Scenarios.version_with "1.1" 20 [])).
Proof.
  assert (Hnd : distinct_keys Scenarios.scenario_versions).
  { unfold distinct_keys. simpl.
    apply (bool_decide_unpack (NoDup ["2.0"; "1.1"; "1.0"])). vm_compute. exact I. }
  split; [exact Hnd|].
  apply (relative_versions_adjacent Scenarios.scenario_versions
           [Scenarios.version_with "2.0" 20 []] [] _ _ Hnd eq_refl).
Defined.

(** X12.  At the ends of the collection there is no neighbour: the first version
    has no [next_version] (the bound check keeps the index -1 from reading
    the last version) and, with distinct keys, the last version has no
    [previous_version]; a version whose key is not in the collection makes
    both raise. *)
Theorem relative_versions_ends (w : Workflow) (v : WorkflowVersion)
    (l : list WorkflowVersion) :
  distinct_keys w ->
  (versions w = v :: l -> next_version w v = Ok None)
  /\ (versions w = (l ++ [v])%list -> previous_version w v = Ok None)
  /\ (~ In (version v) (map version (versions w)) ->
      forall delta_index,
        _get_relative_version w v delta_index = Raise LifeMonitorException_value_error).
Proof.
  unfold distinct_keys, previous_version, next_version, _get_relative_version.
  intros Hnd. split; [|split].
  - intros Hv. rewrite Hv. simpl. rewrite String.eqb_refl. reflexivity.
  - intros Hv. rewrite Hv in *.
    rewrite (index_of_found v l [] (key_before _ _ _ Hnd)).
    rewrite length_app. simpl length.
    destruct (Z.ltb_spec (Z.of_nat (length l) + 1) (Z.of_nat (length l + 1))); [lia|].
    rewrite andb_false_r. reflexivity.
  - intros Hout delta_index. rewrite (index_of_absent v _ Hout). reflexivity.
Qed.

Lemma relative_versions_ends_witness :
  distinct_keys Scenarios.scenario_versions
  /\ next_version Scenarios.scenario_versions (Scenarios.version_with "2.0" 20 []) = Ok None.
Proof.
  assert (Hnd : distinct_keys Scenarios.scenario_versions).
  { unfold distinct_keys. simpl.
    apply (bool_decide_unpack (NoDup ["2.0"; "1.1"; "1.0"])). vm_compute. exact I. }
  split; [exact Hnd|].
  destruct (relative_versions_ends Scenarios.scenario_versions
              (Scenarios.version_with "2.0" 20 [])
              [Scenarios.version_with "1.1" 20 []; Scenarios.version_with "1.0" 10 []]
              Hnd) as (H & _).
  apply H. reflexivity.
Defined.

Lemma same_key_same_version (l : list WorkflowVersion) (a b : WorkflowVersion) :
  NoDup (map version l) -> In a l -> In b l -> version a = version b -> a = b.
Proof.
  induction l as [|x l IH]; simpl; [contradiction|].
  intros Hnd Ha Hb E. apply NoDup_cons in Hnd as [Hx Hnd].
  destruct Ha as [->|Ha], Hb as [->|Hb]; auto.
  - exfalso. apply Hx. rewrite E. apply list_elem_of_In, in_map, Hb.
  - exfalso. apply Hx. rewrite <- E. apply list_elem_of_In, in_map, Ha.
Qed.

(** X13.  With distinct keys, [is_latest] is true of the version
    [latest_version] returns and of no other version of the workflow. *)
Theorem is_latest_only_latest (w : Workflow) (v : WorkflowVersion) :
  distinct_keys w ->
  In v (versions w) ->
  is_latest w v = Ok true <-> latest_version w = Ok v.
Proof.
  unfold distinct_keys, is_latest. intros Hnd Hin.
  pose proof (latest_version_greatest w) as Hl.
  destruct (latest_version w) as [latest|e]; simpl.
  - destruct Hl as [Hl _]. split.
    + intros H. injection H as H. apply String.eqb_eq in H.
      f_equal. exact (same_key_same_version _ _ _ Hnd Hl Hin H).
    + intros H. injection H as ->. rewrite String.eqb_refl. reflexivity.
  - split; discriminate.
Qed.

Lemma is_latest_only_latest_witness :
  distinct_keys Scenarios.scenario_versions
  /\ (is_latest Scenarios.scenario_versions (Scenarios.version_with "2.0" 20 []) = Ok true
      <-> latest_version Scenarios.scenario_versions
          = Ok (Scenarios.version_with "2.0" 20 [])).
Proof.
  assert (Hnd : distinct_keys Scenarios.scenario_versions).
  { unfold distinct_keys. simpl.
    apply (bool_decide_unpack (NoDup ["2.0"; "1.1"; "1.0"])). vm_compute. exact I. }
  split; [exact Hnd|].
  apply (is_latest_only_latest Scenarios.scenario_versions _ Hnd).
  left. reflexivity.
Defined.

End WorkflowsProofs.

(** * Further properties of tasks.py *)

Module TasksExtras.
Import Tasks TasksViews TasksProofs.
Local Open Scope task_scope.

(** ** The purge of notifications *)

Lemma filter_as_bool {A} (P : A -> Prop) `{forall x, Decision (P x)} (l : list A) :
  filter P l = List.filter (fun x => bool_decide (P x)) l.
Proof.
  induction l as [|x l IH]; [reflexivity|].
  rewrite filter_cons. simpl. rewrite <- IH.
  destruct (decide (P x)) as [Hp|Hp].
  - rewrite (bool_decide_eq_true_2 _ Hp). reflexivity.
  - rewrite (bool_decide_eq_false_2 _ Hp). reflexivity.
Qed.

Lemma filter_twice {A} (p q : A -> bool) (l : list A) :
  List.filter p (List.filter q l) = List.filter (fun x => q x && p x) l.
Proof.
  induction l as [|x l IH]; simpl; [reflexivity|].
  destruct (q x); simpl; [destruct (p x); simpl; rewrite IH|]; auto.
Qed.

Lemma filter_all {A} (l : list A) : List.filter (fun _ => true) l = l.
Proof. induction l as [|x l IH]; simpl; [reflexivity | now rewrite IH]. Qed.

Lemma purge_loop (delete_outcome : Notification -> result unit) (l : list Notification)
    (count : nat) (st : State) :
  for_fold l (purge_step delete_outcome) count st =
    ({| notifications :=
          List.filter (fun m => negb (hit delete_outcome l m)) (notifications st);
        updated := updated st;
        errors := (errors st
                   ++ map deletion_error
                        (List.filter (fun n => negb (deletes delete_outcome n)) l))%list |},
     Ok (count + length (List.filter (deletes delete_outcome) l))%nat).
Proof.
  revert count st. induction l as [|n l IH]; intros count st.
  - simpl. unfold ret. rewrite app_nil_r, Nat.add_0_r, filter_all.
    destruct st; reflexivity.
  - cbn [for_fold]. unfold bind at 1.
    unfold purge_step at 1, try_except, delete, bind, lift, get_notifications,
      set_notifications, ret, logger_error.
    destruct (delete_outcome n) as [[]|e] eqn:E; cbn [fst snd]; rewrite IH; simpl.
    + assert (Hd : deletes delete_outcome n = true) by (unfold deletes; rewrite E; reflexivity).
      unfold hit at 2. simpl. rewrite !Hd. simpl. f_equal; [|f_equal; lia].
      f_equal. rewrite filter_as_bool, filter_twice. apply filter_ext. intros m.
      fold (hit delete_outcome l m).
      destruct (Nat.eqb_spec (notification_id n) (notification_id m)) as [Eq|Ne].
      * rewrite bool_decide_eq_false_2 by (intros Hne; apply Hne; auto). reflexivity.
      * rewrite bool_decide_eq_true_2 by (intros Heq; apply Ne; auto). reflexivity.
    + assert (Hd : deletes delete_outcome n = false) by (unfold deletes; rewrite E; reflexivity).
      unfold hit at 2. simpl. rewrite !Hd. simpl. f_equal. f_equal.
      rewrite <- app_assoc. reflexivity.
Qed.

Lemma same_id_same_row (l : list Notification) (a b : Notification) :
  NoDup (map notification_id l) -> In a l -> In b l ->
  notification_id a = notification_id b -> a = b.
Proof.
  induction l as [|x l IH]; simpl; [contradiction|].
  intros Hnd Ha Hb E. apply NoDup_cons in Hnd as [Hx Hnd].
  destruct Ha as [->|Ha], Hb as [->|Hb]; auto.
  - exfalso. apply Hx. rewrite E. apply list_elem_of_In, in_map, Hb.
  - exfalso. apply Hx. rewrite <- E. apply list_elem_of_In, in_map, Ha.
Qed.

Lemma hit_own_row (delete_outcome : Notification -> result unit) (p : Notification -> bool)
    (ns : list Notification) (m : Notification) :
  NoDup (map notification_id ns) -> In m ns ->
  hit delete_outcome (List.filter p ns) m = p m && deletes delete_outcome m.
Proof.
  intros Hnd Hm. apply Bool.eq_iff_eq_true. unfold hit.
  rewrite existsb_exists, andb_true_iff. split.
  - intros (n & Hn & Hdn). apply filter_In in Hn as [Hn Hp].
    apply andb_true_iff in Hdn as [Hd Hid]. apply Nat.eqb_eq in Hid.
    rewrite (same_id_same_row ns n m Hnd Hn Hm Hid) in *. auto.
  - intros [Hp Hd]. exists m. split; [apply filter_In; auto|].
    rewrite Hd, Nat.eqb_refl. reflexivity.
Qed.

(** X14.  The effect of [cleanup_notifications] on a table whose rows have
    distinct identifiers: the rows that remain are those created at the time
    of the run or later and those whose deletion raised, unchanged and in
    their order; one error is logged for each deletion that raised; the count
    is the number of rows deleted. *)
Theorem purge_effect (delete_outcome : Notification -> result unit) (current_time : Z)
    (st : State) :
  distinct_ids st ->
  cleanup_notifications delete_outcome current_time st =
    ({| notifications :=
          List.filter (fun n => negb (old current_time n && deletes delete_outcome n))
                      (notifications st);
        updated := updated st;
        errors :=
          (errors st
           ++ map deletion_error
                (List.filter (fun n => old current_time n
                                       && negb (deletes delete_outcome n))
                             (notifications st)))%list |},
     Ok (length (List.filter (fun n => old current_time n && deletes delete_outcome n)
                             (notifications st)))).
Proof.
  intros Hnd. unfold cleanup_notifications, bind at 1, get_notifications.
  match goal with
  | |- _ = ?r =>
      change (for_fold (older_than (current_time - retention) (notifications st))
                (purge_step delete_outcome) 0%nat st = r)
  end.
  rewrite older_than_threshold, filter_as_bool, purge_loop.
  fold (old current_time). rewrite !filter_twice. simpl. f_equal. f_equal.
  apply filter_ext_in. intros m Hm.
  change (fun n => bool_decide (created n < current_time)%Z) with (old current_time).
  rewrite (hit_own_row delete_outcome (old current_time) _ m Hnd Hm). reflexivity.
Qed.

Lemma purge_effect_witness :
  distinct_ids (Scenarios.table_with [Scenarios.row_at 1 50; Scenarios.row_at 2 150])
  /\ cleanup_notifications Scenarios.delete_succeeds 100
       (Scenarios.table_with [Scenarios.row_at 1 50; Scenarios.row_at 2 150])
     = (Scenarios.table_with [Scenarios.row_at 2 150], Ok 1%nat).
Proof.
  assert (Hnd : distinct_ids
                  (Scenarios.table_with [Scenarios.row_at 1 50; Scenarios.row_at 2 150])).
  { unfold distinct_ids. simpl.
    apply (bool_decide_unpack (NoDup [1%nat; 2%nat])). vm_compute. exact I. }
  split; [exact Hnd|].
  rewrite (purge_effect Scenarios.delete_succeeds 100 _ Hnd). reflexivity.
Defined.

(** ** The email dispatcher *)

Lemma eligible_in_recipients (n : Notification) (u : UserNotification) :
  In u (users n) -> eligible u = true -> email_in u (recipients_of n) = true.
Proof.
  intros Hu He. unfold email_in.
  destruct (eligible_has_address u He) as (e & Hm). rewrite Hm.
  apply bool_decide_eq_true, list_elem_of_In, recipients_of_eligible. eauto.
Qed.

(** X15.  After a delivery no recipient of the notification is eligible any
    more, so the next dispatch of the same notification has an empty list of
    recipients; and an emailed time that was set is still set, for the same
    user, though it may be a later time. *)
Theorem delivered_leaves_no_recipient (n : Notification) (sent : Z) :
  recipients_of (delivered n sent) = []
  /\ Forall (fun u => eligible u = false) (users (delivered n sent))
  /\ forall k u,
       users n !! k = Some u ->
       exists u',
         users (delivered n sent) !! k = Some u'
         /\ user u' = user u
         /\ (emailed u <> None -> emailed u' <> None)
         /\ (emailed u' = emailed u \/ emailed u' = Some sent).
Proof.
  assert (Hall : Forall (fun u => eligible u = false) (users (delivered n sent))).
  { simpl. unfold set_emailed. apply Forall_forall. intros u' Hu'.
    apply list_elem_of_In, in_map_iff in Hu' as (u & <- & Hu).
    destruct (email_in u (recipients_of n)) eqn:E; [reflexivity|].
    destruct (eligible u) eqn:Eu; [|reflexivity].
    rewrite (eligible_in_recipients n u Hu Eu) in E. discriminate. }
  split; [|split; [exact Hall|]].
  - unfold recipients_of. induction Hall as [|u l Hu _ IH]; simpl; [reflexivity|].
    rewrite Hu. exact IH.
  - intros k u Hk. simpl. unfold set_emailed. rewrite list_lookup_fmap, Hk. simpl.
    eexists. split; [reflexivity|].
    destruct (email_in u (recipients_of n)); simpl; repeat split; auto; discriminate.
Qed.

Lemma delivered_leaves_no_recipient_witness :
  recipients_of (Scenarios.notification_for [Scenarios.alice; Scenarios.bob])
  = ["alice@example.org"]
  /\ recipients_of
       (delivered (Scenarios.notification_for [Scenarios.alice; Scenarios.bob]) 500)
     = [].
Proof.
  split; [reflexivity|].
  destruct (delivered_leaves_no_recipient
              (Scenarios.notification_for [Scenarios.alice; Scenarios.bob]) 500)
    as [H _].
  exact H.
Defined.

Lemma dispatch_loop (send_notification : Notification -> list string -> option Z)
    (l : list Notification) (count : nat) (st : State) :
  for_fold l (deliver send_notification) count st =
    ({| notifications :=
          fold_left (fun tbl n => write_back send_notification n tbl) l (notifications st);
        updated := updated st;
        errors := errors st |},
     Ok (count + length (List.filter (sends send_notification) l))%nat).
Proof.
  revert count st. induction l as [|n l IH]; intros count st.
  - simpl. unfold ret. rewrite Nat.add_0_r. destruct st; reflexivity.
  - cbn [for_fold fold_left List.filter]. unfold bind at 1.
    unfold deliver at 1, write_back at 2.
    destruct (send_notification n (recipients_of n)) as [sent|] eqn:E.
    + assert (Hs : sends send_notification n = true) by (unfold sends; rewrite E; reflexivity).
      rewrite Hs.
      unfold save_row, get_notifications, set_notifications, ret. repeat unfold bind.
      cbn beta iota. rewrite IH. simpl. f_equal. f_equal. lia.
    + assert (Hs : sends send_notification n = false) by (unfold sends; rewrite E; reflexivity).
      rewrite Hs. unfold ret. rewrite IH. reflexivity.
Qed.

Lemma write_back_all (send_notification : Notification -> list string -> option Z)
    (l : list Notification) (tbl : list Notification) :
  NoDup (map notification_id l) ->
  fold_left (fun tbl n => write_back send_notification n tbl) l tbl
  = map (row_of send_notification l) tbl.
Proof.
  revert tbl. induction l as [|n l IH]; intros tbl Hnd.
  - simpl. rewrite map_id. reflexivity.
  - simpl in Hnd. apply NoDup_cons in Hnd as [Hn Hnd]. cbn [fold_left].
    rewrite (IH _ Hnd). unfold write_back.
    assert (Hfind : forall m, notification_id m = notification_id n ->
              find (fun n0 => (notification_id m =? notification_id n0)%nat) l = None).
    { intros m Hm. destruct (find _ l) as [x|] eqn:F; [|reflexivity].
      apply find_some in F as [Hx Hid]. apply Nat.eqb_eq in Hid.
      exfalso. apply Hn. rewrite <- Hm, Hid. apply list_elem_of_In, in_map, Hx. }
    destruct (send_notification n (recipients_of n)) as [sent|] eqn:E.
    + rewrite map_map. apply map_ext. intros m. unfold row_of. simpl.
      destruct (Nat.eqb_spec (notification_id m) (notification_id n)) as [Hm|Hm].
      * rewrite E. simpl. rewrite (Hfind n eq_refl). reflexivity.
      * reflexivity.
    + apply map_ext. intros m. unfold row_of. simpl.
      destruct (Nat.eqb_spec (notification_id m) (notification_id n)) as [Hm|Hm].
      * rewrite E, (Hfind m Hm). reflexivity.
      * reflexivity.
Qed.

Lemma bool_decide_true_eq (b : bool) : bool_decide (b = true) = b.
Proof. destruct b; reflexivity. Qed.

Lemma bool_decide_false_eq (b : bool) : bool_decide (b = false) = negb b.
Proof. destruct b; reflexivity. Qed.

Lemma selected_rows (ns : list Notification) :
  filter (fun n => isinstance_UnconfiguredEmailNotification n = false) (not_emailed ns)
  = List.filter selected ns.
Proof.
  unfold not_emailed. rewrite !filter_as_bool, filter_twice. apply filter_ext.
  intros n. unfold selected. rewrite bool_decide_true_eq, bool_decide_false_eq. reflexivity.
Qed.

Lemma NoDup_ids_filter (p : Notification -> bool) (ns : list Notification) :
  NoDup (map notification_id ns) -> NoDup (map notification_id (List.filter p ns)).
Proof.
  induction ns as [|n ns IH]; simpl; [auto|]. intros Hnd.
  apply NoDup_cons in Hnd as [Hn Hnd]. destruct (p n); simpl; [|auto].
  apply NoDup_cons. split; [|auto]. intros Hin. apply Hn.
  apply list_elem_of_In, in_map_iff in Hin as (x & Hx & Hin).
  apply filter_In in Hin as [Hin _]. rewrite <- Hx. apply list_elem_of_In, in_map, Hin.
Qed.

Lemma row_of_selected (send_notification : Notification -> list string -> option Z)
    (ns : list Notification) (m : Notification) :
  NoDup (map notification_id ns) -> In m ns ->
  row_of send_notification (List.filter selected ns) m
  = if selected m then row_after send_notification m else m.
Proof.
  intros Hnd Hm. unfold row_of, row_after.
  destruct (find _ (List.filter selected ns)) as [n|] eqn:F.
  - apply find_some in F as [Hn Hid]. apply filter_In in Hn as [Hn Hsel].
    apply Nat.eqb_eq in Hid.
    rewrite <- (same_id_same_row ns m n Hnd Hm Hn Hid) in *. rewrite Hsel. reflexivity.
  - destruct (selected m) eqn:Hsel; [|reflexivity].
    apply find_none with (x := m) in F; [|apply filter_In; auto].
    rewrite Nat.eqb_refl in F. discriminate.
Qed.

(** X16.  The effect of [send_email_notifications] on a table whose rows have
    distinct identifiers: every notification that has a recipient without
    emailed time and is not an [UnconfiguredEmailNotification] is given once
    to the transport; where the transport accepts it, its row becomes the
    delivered one; every other row is left as it is; the count is the number
    of notifications the transport accepted. *)
Theorem dispatch_effect (send_notification : Notification -> list string -> option Z)
    (st : State) :
  distinct_ids st ->
  send_email_notifications send_notification st =
    ({| notifications :=
          map (fun n => if selected n then row_after send_notification n else n)
              (notifications st);
        updated := updated st;
        errors := errors st |},
     Ok (length (List.filter (fun n => selected n && sends send_notification n)
                             (notifications st)))).
Proof.
  intros Hnd. unfold send_email_notifications, bind at 1, get_notifications.
  rewrite selected_rows, dispatch_loop, filter_twice.
  rewrite write_back_all by (apply NoDup_ids_filter, Hnd). simpl.
  f_equal. f_equal. apply map_ext_in. intros m Hm.
  apply row_of_selected; assumption.
Qed.

Lemma dispatch_effect_witness :
  distinct_ids (Scenarios.table_with [Scenarios.row_at 1 50; Scenarios.row_at 2 150])
  /\ (send_email_notifications Scenarios.transport
        (Scenarios.table_with [Scenarios.row_at 1 50; Scenarios.row_at 2 150])).2
     = Ok 2%nat.
Proof.
  assert (Hnd : distinct_ids
                  (Scenarios.table_with [Scenarios.row_at 1 50; Scenarios.row_at 2 150])).
  { unfold distinct_ids. simpl.
    apply (bool_decide_unpack (NoDup [1%nat; 2%nat])). vm_compute. exact I. }
  split; [exact Hnd|].
  rewrite (dispatch_effect Scenarios.transport _ Hnd). reflexivity.
Defined.

(** ** The refresh of the RO-Crates *)

Lemma versions_refresh (w : Workflow) (vs : list WorkflowVersion) (st : State) :
  Forall (fun v => transaction v = Ok tt) vs ->
  for_each vs (update_version w) st =
    ({| notifications := notifications st;
        updated :=
          (updated st
           ++ omap (fun v => match refresh_outcome v with
                             | Ok _ => Some (uuid w, version v)
                             | Raise _ => None
                             end) vs)%list;
        errors :=
          (errors st
           ++ omap (fun v => match refresh_outcome v with
                             | Ok _ => None
                             | Raise e =>
                                 Some ("Error when updating the workflow "
                                       +:+ workflow_repr w +:+ ": " +:+ str_exception e)
                             end) vs)%list |},
     Ok tt).
Proof.
  intros H. revert st. induction H as [|v vs Hv _ IH]; intros st.
  - simpl. rewrite !app_nil_r. destruct st; reflexivity.
  - rewrite for_each_cons, update_version_unfold, Hv.
    destruct (refresh_outcome v) as [[]|e] eqn:E; simpl; rewrite IH; simpl;
      rewrite ?E; simpl; rewrite <- ?app_assoc; reflexivity.
Qed.

(** X17.  When the lock of every version is acquired, [check_workflows] visits
    every version of every workflow: the RO-Crate of a version is refreshed
    when its login and download return, an error is logged for it when one of
    them raises, in the order of the scan; what the logout does changes
    nothing, and the notifications are not touched. *)
Theorem refresh_effect (ws : list Workflow) (st : State) :
  Forall locks_acquired ws ->
  check_workflows ws st =
    ({| notifications := notifications st;
        updated := (updated st ++ concat (map refreshed ws))%list;
        errors := (errors st ++ concat (map refresh_errors ws))%list |},
     Ok tt).
Proof.
  intros H. unfold check_workflows. revert st.
  induction H as [|w ws Hw _ IH]; intros st.
  - simpl. rewrite !app_nil_r. destruct st; reflexivity.
  - rewrite for_each_cons. unfold update_workflow at 1, try_except.
    rewrite (versions_refresh w (versions w) st Hw), IH. simpl.
    unfold refreshed at 2, refresh_errors at 2. rewrite <- !app_assoc. reflexivity.
Qed.

Lemma refresh_effect_witness :
  Forall locks_acquired [Scenarios.scenario_versions]
  /\ check_workflows [Scenarios.scenario_versions] Scenarios.empty_state
     = ({| notifications := [];
           updated := [("w4", "2.0"); ("w4", "1.1"); ("w4", "1.0")];
           errors := [] |}, Ok tt).
Proof.
  assert (H : Forall locks_acquired [Scenarios.scenario_versions]).
  { repeat constructor. }
  split; [exact H|].
  rewrite (refresh_effect _ Scenarios.empty_state H). reflexivity.
Defined.

(** ** What a pass of check_last_build adds *)

Lemma instance_appends (now : Z) (ws : list Workflow) (w : Workflow) (i : TestInstance)
    (st : State) :
  In w ws ->
  exists added,
    notifications (check_test_instance now w i st).1 = (notifications st ++ added)%list
    /\ Forall (created_by_pass now ws) added
    /\ (length added <= 1)%nat
    /\ updated (check_test_instance now w i st).1 = updated st.
Proof.
  intros Hw. rewrite check_test_instance_unfold.
  destruct (wanted_notification i) as [[[[ev nm] b]|]|e];
    try (exists []; simpl; rewrite app_nil_r; repeat split; auto; fail).
  destruct (length (find_by_name nm (notifications st)) =? 0)%nat;
    [|exists []; simpl; rewrite app_nil_r; repeat split; auto].
  eexists [_]. simpl. split; [reflexivity|]. repeat split; auto.
  constructor; [|constructor]. unfold created_by_pass. simpl. repeat split.
  - apply Forall_forall. intros u Hu.
    apply list_elem_of_In, in_map_iff in Hu as (x & <- & _). reflexivity.
  - exists w. split; [exact Hw|]. rewrite map_map. simpl. apply map_id.
Qed.

Lemma instances_append (now : Z) (ws : list Workflow) (w : Workflow)
    (l : list TestInstance) (st : State) :
  In w ws ->
  exists added,
    notifications (for_each l (check_test_instance now w) st).1
    = (notifications st ++ added)%list
    /\ Forall (created_by_pass now ws) added
    /\ (length added <= length l)%nat
    /\ updated (for_each l (check_test_instance now w) st).1 = updated st.
Proof.
  intros Hw. revert st. induction l as [|i l IH]; intros st.
  - exists []. simpl. rewrite app_nil_r. repeat split; auto.
  - rewrite for_each_cons.
    destruct (instance_appends now ws w i st Hw) as (a1 & Hn1 & Hf1 & Hl1 & Hu1).
    destruct (check_test_instance now w i st) as [st1 [[]|e]]; simpl in *.
    + destruct (IH st1) as (a2 & Hn2 & Hf2 & Hl2 & Hu2).
      exists (a1 ++ a2)%list. rewrite Hn2, Hn1, Hu2, Hu1, <- app_assoc, length_app.
      repeat split; auto; [apply Forall_app; auto | lia].
    + exists a1. repeat split; auto. lia.
Qed.

Lemma workflow_appends (now : Z) (ws : list Workflow) (w : Workflow) (st : State) :
  In w ws ->
  exists added,
    notifications (check_workflow_last_build now w st).1 = (notifications st ++ added)%list
    /\ Forall (created_by_pass now ws) added
    /\ (length added <= length (latest_instances w))%nat
    /\ updated (check_workflow_last_build now w st).1 = updated st.
Proof.
  intros Hw. unfold check_workflow_last_build, try_except, latest_instances.
  rewrite check_workflow_builds_unfold.
  destruct (latest_version w) as [latest|e].
  - destruct (instances_append now ws w
                (concat (map test_instances (test_suites latest))) st Hw)
      as (added & Hn & Hf & Hl & Hu).
    exists added.
    destruct (for_each _ (check_test_instance now w) st) as [st1 [[]|e]]; simpl in *;
      repeat split; auto.
  - exists []. simpl. rewrite app_nil_r. repeat split; auto.
Qed.

(** X18.  A pass of [check_last_build] only adds to the table: the
    notifications it finds are kept as they are and in their order, those it
    adds are workflow status notifications created at the time of the pass
    for the subscribers of one of the workflows, none of them emailed; it
    adds at most one for each test instance of the latest versions, and it
    refreshes no RO-Crate. *)
Theorem pass_only_appends (now : Z) (ws : list Workflow) (st : State) :
  exists added,
    notifications (check_last_build now ws st).1 = (notifications st ++ added)%list
    /\ Forall (created_by_pass now ws) added
    /\ (length added <= length (concat (map latest_instances ws)))%nat
    /\ updated (check_last_build now ws st).1 = updated st.
Proof.
  unfold check_last_build.
  assert (H : forall l, incl l ws -> forall st0,
            exists added,
              notifications (for_each l (check_workflow_last_build now) st0).1
              = (notifications st0 ++ added)%list
              /\ Forall (created_by_pass now ws) added
              /\ (length added <= length (concat (map latest_instances l)))%nat
              /\ updated (for_each l (check_workflow_last_build now) st0).1 = updated st0).
  { induction l as [|w l IH]; intros Hincl st0.
    - exists []. simpl. rewrite app_nil_r. repeat split; auto.
    - rewrite for_each_cons.
      destruct (workflow_appends now ws w st0 (Hincl w (or_introl eq_refl)))
        as (a1 & Hn1 & Hf1 & Hl1 & Hu1).
      pose proof (check_workflow_last_build_returns now w st0) as Hr.
      destruct (check_workflow_last_build now w st0) as [st1 r1]; simpl in *. subst r1.
      destruct (IH (fun x Hx => Hincl x (or_intror Hx)) st1) as (a2 & Hn2 & Hf2 & Hl2 & Hu2).
      exists (a1 ++ a2)%list. rewrite Hn2, Hn1, Hu2, Hu1, <- app_assoc, !length_app.
      repeat split; auto; [apply Forall_app; auto | lia]. }
  apply H, incl_refl.
Qed.

(** X19.  A test instance whose service has no build at all: the job reads
    [last_build.status] on [None], so the instance raises [AttributeError];
    when it is the first instance of its workflow, the pass logs the error
    for the workflow and visits none of its other instances. *)
Theorem instance_without_build (now : Z) (w : Workflow) (i : TestInstance)
    (builds : list TestBuild) (st : State) :
  get_test_builds i 10 = Ok builds ->
  refresh_builds i builds = Ok tt ->
  last_test_build i = Ok None ->
  check_test_instance now w i st = (st, Raise AttributeError)
  /\ forall latest rest,
       latest_version w = Ok latest ->
       concat (map test_instances (test_suites latest)) = i :: rest ->
       check_workflow_last_build now w st
       = logger_error
           "Error when executing task 'check_last_build': 'NoneType' object has no attribute 'status'"
           st.
Proof.
  intros Hb Hr Hl.
  assert (Hw : wanted_notification i = Raise AttributeError).
  { unfold wanted_notification. rewrite Hb. simpl. rewrite Hr. simpl. rewrite Hl.
    reflexivity. }
  split.
  - rewrite check_test_instance_unfold, Hw. reflexivity.
  - intros latest rest Hlatest Hinst. unfold check_workflow_last_build, try_except.
    rewrite check_workflow_builds_unfold, Hlatest, Hinst, for_each_cons,
      check_test_instance_unfold, Hw. reflexivity.
Qed.

Lemma instance_without_build_witness :
  check_workflow_last_build 100
    (Scenarios.workflow_with "w5"
       [Scenarios.instance_with_builds "i0" []; Scenarios.pending_instance])
    Scenarios.empty_state
  = ({| notifications := []; updated := [];
        errors :=
          ["Error when executing task 'check_last_build': 'NoneType' object has no attribute 'status'"] |},
     Ok tt).
Proof.
  destruct (instance_without_build 100
              (Scenarios.workflow_with "w5"
                 [Scenarios.instance_with_builds "i0" []; Scenarios.pending_instance])
              (Scenarios.instance_with_builds "i0" []) [] Scenarios.empty_state
              eq_refl eq_refl eq_refl) as [_ H].
  rewrite (H _ [Scenarios.pending_instance] eq_refl eq_refl). reflexivity.
Defined.

End TasksExtras.

(** * Properties of check_email_configuration *)

Module EmailConfigurationProofs.
Import Tasks EmailConfiguration.

Lemma collect_filter (tbl : list UnconfiguredEmail) (all users : list User) (count : nat) :
  collect tbl all users count =
    ((users ++ List.filter (to_flag tbl) all)%list,
     (count + length (List.filter (to_flag tbl) all))%nat).
Proof.
  revert users count. induction all as [|u all IH]; intros users count; simpl.
  - rewrite app_nil_r, Nat.add_0_r. reflexivity.
  - destruct (to_flag tbl u); rewrite IH; simpl; [|reflexivity].
    rewrite <- app_assoc. f_equal. lia.
Qed.

Lemma find_by_user_app (u : User) (t1 t2 : list UnconfiguredEmail) :
  find_by_user u (t1 ++ t2) = (find_by_user u t1 ++ find_by_user u t2)%list.
Proof. unfold find_by_user. apply List.filter_app. Qed.

Lemma filter_none {A} (p : A -> bool) (l : list A) :
  (forall x, In x l -> p x = false) -> List.filter p l = [].
Proof.
  induction l as [|x l IH]; intros H; simpl; [reflexivity|].
  rewrite (H x (or_introl eq_refl)). apply IH. intros y Hy. apply H. right. exact Hy.
Qed.

Lemma flagged_once (tbl : list UnconfiguredEmail) (all : list User) (u : User) :
  List.filter (to_flag tbl) all <> [] ->
  In u all ->
  to_flag (tbl ++ [{| ue_name := "Unconfigured email";
                      ue_users := List.filter (to_flag tbl) all |}]) u = false.
Proof.
  intros _ Hu. unfold to_flag at 1. rewrite find_by_user_app, length_app.
  destruct (truthy (email u)) eqn:Et; [reflexivity|]. simpl.
  destruct (length (find_by_user u tbl)) as [|k] eqn:El; [|reflexivity].
  assert (Hf : to_flag tbl u = true) by (unfold to_flag; rewrite Et, El; reflexivity).
  assert (Hex : existsb (fun x => (user_id x =? user_id u)%nat)
                        (List.filter (to_flag tbl) all) = true).
  { apply existsb_exists. exists u. split; [apply filter_In; auto | apply Nat.eqb_refl]. }
  simpl. rewrite Hex. reflexivity.
Qed.

(** X20.  A run of [check_email_configuration] over the users [all]: it adds one
    notification, named "Unconfigured email", for the users without email
    that no notification of the class names yet, and none when there is no
    such user; its count is their number; a second run over the same users
    adds nothing and counts zero; and when the list of the users cannot be
    read, the handler itself raises, the notification [n] it logs being
    unbound. *)
Theorem email_configuration_once (all : list User) (tbl : list UnconfiguredEmail) :
  let flagged := List.filter (to_flag tbl) all in
  check_email_configuration (Ok all) tbl =
    (match flagged with
     | [] => tbl
     | _ :: _ => (tbl ++ [{| ue_name := "Unconfigured email"; ue_users := flagged |}])%list
     end,
     Returned (length flagged))
  /\ Forall (fun u => In u all /\ truthy (email u) = false /\ find_by_user u tbl = [])
            flagged
  /\ check_email_configuration (Ok all) (check_email_configuration (Ok all) tbl).1
     = ((check_email_configuration (Ok all) tbl).1, Returned 0%nat)
  /\ forall e, check_email_configuration (Raise e) tbl = (tbl, UnboundLocalError).
Proof.
  cbv zeta.
  assert (Hrun : forall t,
            check_email_configuration (Ok all) t =
              (match List.filter (to_flag t) all with
               | [] => t
               | _ :: _ =>
                   (t ++ [{| ue_name := "Unconfigured email";
                             ue_users := List.filter (to_flag t) all |}])%list
               end,
               Returned (length (List.filter (to_flag t) all)))).
  { intros t. unfold check_email_configuration. rewrite collect_filter. simpl.
    destruct (List.filter (to_flag t) all); reflexivity. }
  split; [apply Hrun|]. split; [|split; [|reflexivity]].
  - apply Forall_forall. intros u Hu. apply list_elem_of_In, filter_In in Hu as [Hu Hf].
    unfold to_flag in Hf. apply andb_true_iff in Hf as [Ht Hl].
    apply negb_true_iff in Ht. apply Nat.eqb_eq in Hl.
    repeat split; auto. destruct (find_by_user u tbl); [reflexivity | discriminate].
  - rewrite (Hrun tbl). cbn [fst].
    destruct (List.filter (to_flag tbl) all) as [|x l] eqn:E.
    + rewrite (Hrun tbl), E. reflexivity.
    + rewrite Hrun.
      assert (Hnone : List.filter
                        (to_flag (tbl ++ [{| ue_name := "Unconfigured email";
                                             ue_users := x :: l |}])) all = []).
      { rewrite <- E.
        assert (Hall : forall u, In u all ->
                  to_flag (tbl ++ [{| ue_name := "Unconfigured email";
                                      ue_users := List.filter (to_flag tbl) all |}]) u
                  = false).
        { intros u Hu. apply flagged_once; [rewrite E; discriminate | exact Hu]. }
        apply filter_none, Hall. }
      rewrite Hnone. reflexivity.
Qed.

End EmailConfigurationProofs.

(** * Properties of utils.py *)

Module UtilsProofs.
Import Utils.

Lemma append_same_head (name a b : string) : name +:+ a = name +:+ b -> a = b.
Proof.
  induction name as [|c name IH]; simpl; [auto|].
  intros H. injection H as H. apply IH, H.
Qed.

Lemma keys_apart (name : string) :
  endpoint_key name <> args_key name
  /\ endpoint_key name <> forms_key name
  /\ args_key name <> forms_key name.
Proof.
  unfold endpoint_key, args_key, forms_key.
  repeat split; intros H; apply append_same_head in H; discriminate.
Qed.

(** X21.  A request pushed under [name] with an endpoint that is set and not
    empty is what the next pop under [name] returns, with its arguments and
    its form; the pop removes the three keys, so that a session that had none
    of them is back as it was. *)
Theorem session_round_trip (name e : string) (request : Request)
    (session : gmap string SessionValue) :
  endpoint request = Some e ->
  e <> EmptyString ->
  pop_request_from_session name (push_request_to_session name request session)
  = (Returns (Some {| popped_endpoint := VText e;
                      popped_args := VItems (args request);
                      popped_form := VItems (form request) |}),
     delete (forms_key name) (delete (args_key name) (delete (endpoint_key name) session)))
  /\ (session !! endpoint_key name = None ->
      session !! args_key name = None ->
      session !! forms_key name = None ->
      (pop_request_from_session name (push_request_to_session name request session)).2
      = session).
Proof.
  intros He Hne. destruct (keys_apart name) as (Hea & Hef & Haf).
  assert (Hpop :
    pop_request_from_session name (push_request_to_session name request session)
    = (Returns (Some {| popped_endpoint := VText e;
                        popped_args := VItems (args request);
                        popped_form := VItems (form request) |}),
       delete (forms_key name)
         (delete (args_key name) (delete (endpoint_key name) session)))).
  { unfold pop_request_from_session, push_request_to_session, endpoint_value.
    rewrite He.
    rewrite lookup_insert_ne by congruence.
    rewrite lookup_insert_ne by congruence.
    rewrite lookup_insert_eq. simpl.
    assert (Ht : negb (String.eqb e EmptyString) = true).
    { apply negb_true_iff, String.eqb_neq, Hne. }
    rewrite Ht.
    rewrite lookup_delete_ne by congruence.
    rewrite lookup_insert_ne by congruence.
    rewrite lookup_insert_eq.
    rewrite lookup_delete_ne by congruence.
    rewrite lookup_delete_ne by congruence.
    rewrite lookup_insert_eq.
    f_equal. apply map_eq. intros k.
    destruct (decide (k = forms_key name)) as [->|Hf];
      [rewrite !lookup_delete_eq; reflexivity|].
    rewrite !(lookup_delete_ne _ (forms_key name)) by congruence.
    destruct (decide (k = args_key name)) as [->|Ha];
      [rewrite !lookup_delete_eq; reflexivity|].
    rewrite !(lookup_delete_ne _ (args_key name)) by congruence.
    destruct (decide (k = endpoint_key name)) as [->|Hk];
      [rewrite !lookup_delete_eq; reflexivity|].
    rewrite !(lookup_delete_ne _ (endpoint_key name)) by congruence.
    rewrite !lookup_insert_ne by congruence. reflexivity. }
  split; [exact Hpop|].
  intros H1 H2 H3. rewrite Hpop. simpl.
  rewrite (delete_id session (endpoint_key name)) by exact H1.
  rewrite (delete_id session (args_key name)) by exact H2.
  apply delete_id, H3.
Qed.

Lemma session_round_trip_witness :
  pop_request_from_session "oauth"
    (push_request_to_session "oauth"
       {| endpoint := Some "auth.login"; args := [("next", "/")]; form := [] |} ∅)
  = (Returns (Some {| popped_endpoint := VText "auth.login";
                      popped_args := VItems [("next", "/")];
                      popped_form := VItems [] |}), ∅).
Proof.
  destruct (session_round_trip "oauth" "auth.login"
              {| endpoint := Some "auth.login"; args := [("next", "/")]; form := [] |} ∅
              eq_refl ltac:(discriminate)) as [Hpop Hback].
  specialize (Hback (lookup_empty _) (lookup_empty _) (lookup_empty _)).
  rewrite Hpop in Hback |- *. simpl in Hback. rewrite Hback. reflexivity.
Defined.

(** X22.  What [pop_request_from_session] does when there is no request to
    return.  Without an endpoint under [name] it returns [None] and leaves
    the session as it is.  A request pushed without endpoint is not returned
    either: the pop returns [None], and the arguments and the form pushed
    with it stay in the session.  With an endpoint but without arguments
    under [name] the pop raises [KeyError], after it has removed the
    endpoint. *)
Theorem session_pop_edges (name : string) (request : Request)
    (session : gmap string SessionValue) :
  (session !! endpoint_key name = None ->
   pop_request_from_session name session = (Returns None, session))
  /\ (endpoint request = None ->
      pop_request_from_session name (push_request_to_session name request session)
      = (Returns None,
         <[forms_key name := VItems (form request)]>
           (<[args_key name := VItems (args request)]>
              (delete (endpoint_key name) session))))
  /\ (forall v,
        session !! endpoint_key name = Some v ->
        truth v = true ->
        session !! args_key name = None ->
        pop_request_from_session name session
        = (KeyError (args_key name), delete (endpoint_key name) session)).
Proof.
  destruct (keys_apart name) as (Hea & Hef & Haf). split; [|split].
  - intros H. unfold pop_request_from_session. rewrite H. simpl.
    rewrite (delete_id session (endpoint_key name)) by exact H. reflexivity.
  - intros H. unfold pop_request_from_session, push_request_to_session, endpoint_value.
    rewrite H.
    rewrite lookup_insert_ne by congruence.
    rewrite lookup_insert_ne by congruence.
    rewrite lookup_insert_eq. simpl. f_equal.
    rewrite delete_insert_ne by congruence.
    rewrite delete_insert_ne by congruence.
    rewrite delete_insert_eq. reflexivity.
  - intros v Hv Ht Ha. unfold pop_request_from_session. rewrite Hv. simpl. rewrite Ht.
    rewrite lookup_delete_ne by congruence. rewrite Ha. reflexivity.
Qed.

Lemma session_pop_edges_witness :
  pop_request_from_session "oauth"
    (push_request_to_session "oauth"
       {| endpoint := None; args := [("next", "/")]; form := [] |} ∅)
  = (Returns None,
     <[forms_key "oauth" := VItems []]>
       (<[args_key "oauth" := VItems [("next", "/")]]> (delete (endpoint_key "oauth") ∅))).
Proof.
  destruct (session_pop_edges "oauth"
              {| endpoint := None; args := [("next", "/")]; form := [] |} ∅)
    as (_ & H & _).
  exact (H eq_refl).
Defined.

End UtilsProofs.
